(** * Notefied: the note lifecycle and trash subsystem of the notes service

    A shallow embedding of the notes service (the express application with
    the routes [/notes] and [/trashed-notes]) and of the two tables of
    [database/init.sql] it works on.

    Modelling choices, all on the side of the database engine and of the
    libraries the service calls:
    - a TIMESTAMP is an integer number of microseconds ([Z]); the driver
      hands a timestamp read from a row to the service as a JS Date, which
      holds whole milliseconds, so a timestamp the service reads and sends
      back as a query parameter arrives cut to the millisecond ([js_date]);
      the driver and the engine read a timestamp in one and the same time
      zone; a response carries a row as the table holds it, its rendering
      as JSON is not modelled;
    - the columns every INSERT of the service fills ([user_id], [created_at],
      [updated_at], [note_id], [trashed_at]) are not nullable in the model;
      [original_updated_at], which the restore route guards with COALESCE,
      is;
    - a SERIAL column draws from an unbounded counter that no rollback
      rewinds; ids are integers ([Z]), the route parameter after [parseInt]
      (a parameter the id column cannot hold makes the query throw, which is
      a fault of that query);
    - a body field is a string, an absent one the empty string;
    - [NOW()] and [CURRENT_TIMESTAMP] are the time at which the request's
      transaction starts, the argument [now] of every handler;
    - a string is a sequence of code units below 256;
    - any query but ROLLBACK can be made to throw by a fault plan, a function
      from the position of the query within its handler to [bool]; a query
      the plan makes throw has no effect;
    - requests are served one after the other. *)

From Stdlib Require Import ZArith List String Ascii Bool Lia Permutation Sorted.
Import ListNotations.
Local Open Scope Z_scope.

(** ** Rows of the two tables (database/init.sql) *)

Module Note.
Record t : Type := mk {
  id : Z;
  user_id : Z;
  title : string;
  content : string;
  created_at : Z;
  updated_at : Z
}.
End Note.

Module Trashed.
Record t : Type := mk {
  id : Z;
  note_id : Z;
  user_id : Z;
  title : string;
  content : string;
  trashed_at : Z;
  original_updated_at : option Z
}.
End Trashed.

Record tables : Type := mkTables {
  notes : list Note.t;
  trashed_notes : list Trashed.t
}.

(** The two sequences behind the SERIAL columns hold the next value they
    hand out. *)
Record database : Type := mkDatabase {
  data : tables;
  notes_id_seq : Z;
  trashed_notes_id_seq : Z
}.

Definition empty_db : database :=
  mkDatabase (mkTables [] []) 1 1.

(** ** express-validator: validators and sanitizers of a chain run in order *)

Module Validator.

(** [\s] on code units below 256. *)
Definition is_space (c : ascii) : bool :=
  let n := nat_of_ascii c in
  ((9 <=? n) && (n <=? 13) || (n =? 32) || (n =? 160))%nat.

Fixpoint ltrim (s : string) : string :=
  match s with
  | EmptyString => EmptyString
  | String c s' => if is_space c then ltrim s' else s
  end.

Fixpoint rtrim (s : string) : string :=
  match s with
  | EmptyString => EmptyString
  | String c s' =>
      match rtrim s' with
      | EmptyString => if is_space c then EmptyString else String c EmptyString
      | r => String c r
      end
  end.

Definition trim (s : string) : string := rtrim (ltrim s).

Definition isLength (min : nat) (s : string) : bool :=
  (min <=? String.length s)%nat.

Inductive item : Type :=
| validator (v : string -> bool)
| sanitizer (f : string -> string).

(** Runs a chain on a field's value: the value after the sanitizers, and
    whether every validator accepted the value it was given. *)
Fixpoint run_chain (chain : list item) (value : string) : string * bool :=
  match chain with
  | [] => (value, true)
  | validator v :: rest =>
      let '(value', ok) := run_chain rest value in (value', v value && ok)
  | sanitizer f :: rest => run_chain rest (f value)
  end.

End Validator.

(** [body(field).isLength({ min: 1 }).trim()] *)
Definition note_field_chain : list Validator.item :=
  [Validator.validator (Validator.isLength 1);
   Validator.sanitizer Validator.trim].

(** The request body after the chains ran, and the fields with an error. *)
Definition validationResult (title content : string)
  : list string * (string * string) :=
  let '(title', ok_t) := Validator.run_chain note_field_chain title in
  let '(content', ok_c) := Validator.run_chain note_field_chain content in
  ((if ok_t then [] else ["title"%string]) ++
   (if ok_c then [] else ["content"%string]),
   (title', content')).

(** ** Responses *)

Inductive payload : Type :=
| JNote (n : Note.t)
| JNotes (rows : list Note.t)
| JTrashedNotes (rows : list Trashed.t)
| JError (error : string)
| JErrors (fields : list string)
| JNone.

Record response : Type := res {
  status : Z;
  body : payload
}.

(** ** The engine: statements, sequences, transactions, injected faults *)

Inductive outcome (A : Type) : Type :=
| Done (a : A)
| Thrown (message : string).
Arguments Done {A} a.
Arguments Thrown {A} message.

(** A statement runs against the tables its connection sees and against the
    sequences. *)
Definition statement (A : Type) : Type := database -> outcome A * database.

(** A timestamp after its passage through a JS Date: the driver parses the
    column into a Date and writes a Date parameter with three decimals of
    the second. *)
Definition js_date (t : Z) : Z := 1000 * (t / 1000).
Arguments js_date : simpl never.

Definition COALESCE (x : option Z) (otherwise : Z) : Z :=
  match x with
  | Some v => v
  | None => otherwise
  end.

Definition set_notes (d : database) (l : list Note.t) : database :=
  mkDatabase (mkTables l (trashed_notes (data d)))
             (notes_id_seq d) (trashed_notes_id_seq d).

Definition set_trashed_notes (d : database) (l : list Trashed.t) : database :=
  mkDatabase (mkTables (notes (data d)) l)
             (notes_id_seq d) (trashed_notes_id_seq d).

Definition nextval_notes (d : database) : Z * database :=
  (notes_id_seq d,
   mkDatabase (data d) (notes_id_seq d + 1) (trashed_notes_id_seq d)).

Definition nextval_trashed_notes (d : database) : Z * database :=
  (trashed_notes_id_seq d,
   mkDatabase (data d) (notes_id_seq d) (trashed_notes_id_seq d + 1)).

Definition note_is (i uid : Z) (n : Note.t) : bool :=
  (Note.id n =? i) && (Note.user_id n =? uid).

Definition trashed_is (i uid : Z) (t : Trashed.t) : bool :=
  (Trashed.id t =? i) && (Trashed.user_id t =? uid).

(** A column left out of an INSERT takes its default, here
    CURRENT_TIMESTAMP. *)
Definition DEFAULT (given : option Z) (default : Z) : Z :=
  match given with
  | Some v => v
  | None => default
  end.

(** INSERT INTO notes (user_id, title, content [, updated_at]) VALUES ...
    RETURNING *; [id] and [created_at] take their defaults, [updated_at]
    does when it is not given.  The primary key rejects an id already in the
    table; the sequence value drawn is lost then. *)
Definition insert_into_notes (uid : Z) (title content : string)
    (updated : option Z) (now : Z) : statement Note.t :=
  fun d =>
    let '(i, d1) := nextval_notes d in
    if existsb (fun n => Note.id n =? i) (notes (data d1))
    then (Thrown "duplicate key value violates unique constraint", d1)
    else
      let row := Note.mk i uid title content now (DEFAULT updated now) in
      (Done row, set_notes d1 (notes (data d1) ++ [row])).

(** INSERT INTO trashed_notes (note_id, user_id, title, content, trashed_at,
    original_updated_at) *)
Definition insert_into_trashed_notes (nid uid : Z) (title content : string)
    (trashed : Z) (original : option Z) : statement unit :=
  fun d =>
    let '(i, d1) := nextval_trashed_notes d in
    if existsb (fun t => Trashed.id t =? i) (trashed_notes (data d1))
    then (Thrown "duplicate key value violates unique constraint", d1)
    else
      let row := Trashed.mk i nid uid title content trashed original in
      (Done tt, set_trashed_notes d1 (trashed_notes (data d1) ++ [row])).

(** SELECT * FROM notes WHERE id = $1 AND user_id = $2 *)
Definition select_note (i uid : Z) : statement (list Note.t) :=
  fun d => (Done (filter (note_is i uid) (notes (data d))), d).

(** SELECT * FROM trashed_notes WHERE id = $1 AND user_id = $2 *)
Definition select_trashed_note (i uid : Z) : statement (list Trashed.t) :=
  fun d => (Done (filter (trashed_is i uid) (trashed_notes (data d))), d).

(** DELETE FROM notes WHERE id = $1 AND user_id = $2 *)
Definition delete_from_notes (i uid : Z) : statement unit :=
  fun d =>
    (Done tt,
     set_notes d (filter (fun n => negb (note_is i uid n)) (notes (data d)))).

(** DELETE FROM trashed_notes WHERE id = $1 AND user_id = $2 RETURNING * *)
Definition delete_from_trashed_notes (i uid : Z)
  : statement (list Trashed.t) :=
  fun d =>
    (Done (filter (trashed_is i uid) (trashed_notes (data d))),
     set_trashed_notes d
       (filter (fun t => negb (trashed_is i uid t)) (trashed_notes (data d)))).

(** The trigger [update_notes_updated_at], BEFORE UPDATE ON notes. *)
Definition update_updated_at_column (now : Z) (new : Note.t) : Note.t :=
  Note.mk (Note.id new) (Note.user_id new) (Note.title new)
          (Note.content new) (Note.created_at new) now.

(** UPDATE notes SET title = $1, content = $2, updated_at = NOW()
    WHERE id = $3 AND user_id = $4 RETURNING * *)
Definition update_row (title content : string) (now : Z) (n : Note.t)
  : Note.t :=
  update_updated_at_column now
    (Note.mk (Note.id n) (Note.user_id n) title content
             (Note.created_at n) now).

Definition update_notes (title content : string) (i uid now : Z)
  : statement (list Note.t) :=
  fun d =>
    let rows :=
      map (fun n => if note_is i uid n then update_row title content now n
                    else n)
          (notes (data d)) in
    (Done (map (update_row title content now)
               (filter (note_is i uid) (notes (data d)))),
     set_notes d rows).

(** ORDER BY key DESC *)
Fixpoint insert_desc {A : Type} (key : A -> Z) (x : A) (l : list A)
  : list A :=
  match l with
  | [] => [x]
  | y :: l' =>
      if key y <? key x then x :: l else y :: insert_desc key x l'
  end.

Definition order_by_desc {A : Type} (key : A -> Z) (l : list A) : list A :=
  fold_right (insert_desc key) [] l.

(** SELECT * FROM notes WHERE user_id = $1 ORDER BY updated_at DESC *)
Definition select_notes_of (uid : Z) : statement (list Note.t) :=
  fun d =>
    (Done (order_by_desc Note.updated_at
             (filter (fun n => Note.user_id n =? uid) (notes (data d)))),
     d).

(** SELECT * FROM trashed_notes WHERE user_id = $1 ORDER BY trashed_at DESC *)
Definition select_trashed_notes_of (uid : Z) : statement (list Trashed.t) :=
  fun d =>
    (Done (order_by_desc Trashed.trashed_at
             (filter (fun t => Trashed.user_id t =? uid)
                     (trashed_notes (data d)))),
     d).

(** A connection while a handler runs: the server (committed tables and
    sequences), the tables of the open transaction if there is one, and the
    number of queries the handler has issued. *)
Record conn : Type := mkConn {
  server : database;
  txn : option tables;
  issued : nat
}.

Definition exec (A : Type) : Type := conn -> outcome A * conn.

Definition ret {A : Type} (a : A) : exec A := fun c => (Done a, c).

Definition bind {A B : Type} (m : exec A) (k : A -> exec B) : exec B :=
  fun c =>
    match m c with
    | (Done a, c') => k a c'
    | (Thrown e, c') => (Thrown e, c')
    end.

Notation "x <- m ;; k" := (bind m (fun x => k))
  (at level 61, m at next level, right associativity).
Notation "m ;; k" := (bind m (fun _ => k))
  (at level 61, right associativity).

(** try { body } catch (error) { handler } *)
Definition try_catch {A : Type} (body : exec A) (handler : string -> exec A)
  : exec A :=
  fun c =>
    match body c with
    | (Done a, c') => (Done a, c')
    | (Thrown e, c') => handler e c'
    end.

Definition tick (c : conn) : conn :=
  mkConn (server c) (txn c) (S (issued c)).

(** What the connection sees: its transaction's tables when one is open. *)
Definition seen (c : conn) : database :=
  match txn c with
  | Some t => mkDatabase t (notes_id_seq (server c))
                         (trashed_notes_id_seq (server c))
  | None => server c
  end.

(** Sequences are written through; tables go to the open transaction, or
    straight to the server when the statement runs on its own. *)
Definition store (c : conn) (d : database) : conn :=
  match txn c with
  | Some _ =>
      mkConn (mkDatabase (data (server c)) (notes_id_seq d)
                         (trashed_notes_id_seq d))
             (Some (data d)) (issued c)
  | None => mkConn d None (issued c)
  end.

Section Queries.

Variable fails : nat -> bool.

(** [client.query] and [pool.query] *)
Definition query {A : Type} (s : statement A) : exec A :=
  fun c =>
    if fails (issued c) then (Thrown "query failed", tick c)
    else let '(r, d) := s (seen c) in (r, store (tick c) d).

Definition BEGIN : exec unit :=
  fun c =>
    if fails (issued c) then (Thrown "query failed", tick c)
    else (Done tt, mkConn (server c) (Some (data (server c))) (S (issued c))).

Definition COMMIT : exec unit :=
  fun c =>
    if fails (issued c) then (Thrown "query failed", tick c)
    else
      (Done tt,
       mkConn (mkDatabase (data (seen c)) (notes_id_seq (server c))
                          (trashed_notes_id_seq (server c)))
              None (S (issued c))).

Definition ROLLBACK : exec unit :=
  fun c => (Done tt, mkConn (server c) None (S (issued c))).

(** ** The routes *)

(** POST /notes *)
Definition create_note (userId : Z) (title content : string) (now : Z)
  : exec response :=
  let '(errors, (title, content)) := validationResult title content in
  match errors with
  | _ :: _ => ret (res 400 (JErrors errors))
  | [] =>
      try_catch
        (row <- query (insert_into_notes userId title content None now) ;;
         ret (res 201 (JNote row)))
        (fun _ => ret (res 500 (JError "Failed to create note")))
  end.

(** GET /notes *)
Definition get_notes (userId : Z) : exec response :=
  try_catch
    (rows <- query (select_notes_of userId) ;;
     ret (res 200 (JNotes rows)))
    (fun _ => ret (res 500 (JError "Failed to fetch notes"))).

(** GET /trashed-notes *)
Definition get_trashed_notes (userId : Z) : exec response :=
  try_catch
    (rows <- query (select_trashed_notes_of userId) ;;
     ret (res 200 (JTrashedNotes rows)))
    (fun _ => ret (res 500 (JError "Failed to fetch trashed notes"))).

(** DELETE /notes/:id; [note.updated_at], parameter $5 of the INSERT, is the
    Date the driver has made of the column. *)
Definition trash_note (userId noteId now : Z) : exec response :=
  try_catch
    (BEGIN ;;
     noteResult <- query (select_note noteId userId) ;;
     match noteResult with
     | [] =>
         ROLLBACK ;;
         ret (res 404 (JError "Note not found or not owned by user"))
     | note :: _ =>
         query (insert_into_trashed_notes
                  (Note.id note) (Note.user_id note) (Note.title note)
                  (Note.content note) now
                  (Some (js_date (Note.updated_at note)))) ;;
         query (delete_from_notes noteId userId) ;;
         COMMIT ;;
         ret (res 204 JNone)
     end)
    (fun _ =>
       ROLLBACK ;;
       ret (res 500 (JError "Failed to move note to trash"))).

(** POST /trashed-notes/:id/restore; [trashedNote.original_updated_at],
    parameter $4 of the INSERT, is a Date or null. *)
Definition restore_note (userId trashedNoteId now : Z) : exec response :=
  try_catch
    (BEGIN ;;
     trashedResult <- query (select_trashed_note trashedNoteId userId) ;;
     match trashedResult with
     | [] =>
         ROLLBACK ;;
         ret (res 404 (JError "Trashed note not found or not owned by user"))
     | trashedNote :: _ =>
         restored <-
           query (insert_into_notes
                    (Trashed.user_id trashedNote) (Trashed.title trashedNote)
                    (Trashed.content trashedNote)
                    (Some (COALESCE
                             (option_map js_date
                                (Trashed.original_updated_at trashedNote))
                             now))
                    now) ;;
         query (delete_from_trashed_notes trashedNoteId userId) ;;
         COMMIT ;;
         ret (res 200 (JNote restored))
     end)
    (fun _ =>
       ROLLBACK ;;
       ret (res 500 (JError "Failed to restore note"))).

(** DELETE /trashed-notes/:id *)
Definition erase_trashed_note (userId trashedNoteId : Z) : exec response :=
  try_catch
    (rows <- query (delete_from_trashed_notes trashedNoteId userId) ;;
     match rows with
     | [] =>
         ret (res 404 (JError "Trashed note not found or not owned by user"))
     | _ :: _ => ret (res 204 JNone)
     end)
    (fun _ => ret (res 500 (JError "Failed to permanently delete note"))).

(** PUT /notes/:id *)
Definition update_note (userId noteId : Z) (title content : string) (now : Z)
  : exec response :=
  let '(errors, (title, content)) := validationResult title content in
  match errors with
  | _ :: _ => ret (res 400 (JErrors errors))
  | [] =>
      try_catch
        (rows <- query (update_notes title content noteId userId now) ;;
         match rows with
         | [] => ret (res 404 (JError "Note not found or not owned by user"))
         | row :: _ => ret (res 200 (JNote row))
         end)
        (fun _ => ret (res 500 (JError "Failed to update note")))
  end.

End Queries.

(** ** Serving requests *)

Inductive request : Type :=
| PostNotes (title content : string)
| GetNotes
| GetTrashedNotes
| DeleteNote (id : Z)
| PostRestore (id : Z)
| DeleteTrashedNote (id : Z)
| PutNote (id : Z) (title content : string).

(** A request as the routes past [authMiddleware] see it: the verified
    [req.userId], the time it is served at, the faults injected into its
    queries. *)
Record event : Type := mkEvent {
  userId : Z;
  now : Z;
  faults : nat -> bool;
  req : request
}.

Definition no_fault : nat -> bool := fun _ => false.

Definition fail_at (k : nat) : nat -> bool := fun i => Nat.eqb i k.

Definition route (e : event) : exec response :=
  match req e with
  | PostNotes title content =>
      create_note (faults e) (userId e) title content (now e)
  | GetNotes => get_notes (faults e) (userId e)
  | GetTrashedNotes => get_trashed_notes (faults e) (userId e)
  | DeleteNote i => trash_note (faults e) (userId e) i (now e)
  | PostRestore i => restore_note (faults e) (userId e) i (now e)
  | DeleteTrashedNote i => erase_trashed_note (faults e) (userId e) i
  | PutNote i title content =>
      update_note (faults e) (userId e) i title content (now e)
  end.

(** A handler gets a connection of the pool with no transaction open; what is
    left on the server when it returns is the database the next request
    finds. *)
Definition handle (h : exec response) (db : database)
  : outcome response * database :=
  let '(r, c) := h (mkConn db None 0) in (r, server c).

Definition serve (e : event) (db : database) : outcome response * database :=
  handle (route e) db.

Fixpoint run (evs : list event) (db : database) : database :=
  match evs with
  | [] => db
  | e :: evs' => run evs' (snd (serve e db))
  end.

(** ** What the proofs speak about *)

(** The row the trash route writes for note [n], and the row the restore
    route writes for trashed note [t], under id [i] at time [now]. *)
Definition moved_to_trash (i : Z) (n : Note.t) (now : Z) : Trashed.t :=
  Trashed.mk i (Note.id n) (Note.user_id n) (Note.title n) (Note.content n)
             now (Some (js_date (Note.updated_at n))).

Definition moved_to_notes (i : Z) (t : Trashed.t) (now : Z) : Note.t :=
  Note.mk i (Trashed.user_id t) (Trashed.title t) (Trashed.content t) now
          (COALESCE (option_map js_date (Trashed.original_updated_at t)) now).

(** Everything a served request can do to the database, whatever the
    faults: nothing to the tables, or one of five moves. *)
Inductive transition (e : event) (db : database) (r : response)
    (db' : database) : Prop :=
| tr_none :
    data db' = data db ->
    notes_id_seq db <= notes_id_seq db' ->
    trashed_notes_id_seq db <= trashed_notes_id_seq db' ->
    status r = 400 \/ status r = 404 \/ status r = 500 \/
    status r = 200 /\ (req e = GetNotes \/ req e = GetTrashedNotes) ->
    transition e db r db'
| tr_created title content n :
    req e = PostNotes title content ->
    fst (validationResult title content) = [] ->
    n = Note.mk (notes_id_seq db) (userId e) (Validator.trim title)
                (Validator.trim content) (now e) (now e) ->
    r = res 201 (JNote n) ->
    db' = mkDatabase (mkTables (notes (data db) ++ [n])
                               (trashed_notes (data db)))
                     (notes_id_seq db + 1) (trashed_notes_id_seq db) ->
    transition e db r db'
| tr_updated i title content n rest :
    req e = PutNote i title content ->
    fst (validationResult title content) = [] ->
    filter (note_is i (userId e)) (notes (data db)) = n :: rest ->
    r = res 200 (JNote (update_row (Validator.trim title)
                                   (Validator.trim content) (now e) n)) ->
    db' = set_notes db
            (map (fun m => if note_is i (userId e) m
                           then update_row (Validator.trim title)
                                           (Validator.trim content) (now e) m
                           else m)
                 (notes (data db))) ->
    transition e db r db'
| tr_trashed i n rest :
    req e = DeleteNote i ->
    filter (note_is i (userId e)) (notes (data db)) = n :: rest ->
    r = res 204 JNone ->
    db' = mkDatabase
            (mkTables
               (filter (fun m => negb (note_is i (userId e) m))
                       (notes (data db)))
               (trashed_notes (data db) ++
                [moved_to_trash (trashed_notes_id_seq db) n (now e)]))
            (notes_id_seq db) (trashed_notes_id_seq db + 1) ->
    transition e db r db'
| tr_restored i t rest :
    req e = PostRestore i ->
    filter (trashed_is i (userId e)) (trashed_notes (data db)) = t :: rest ->
    r = res 200 (JNote (moved_to_notes (notes_id_seq db) t (now e))) ->
    db' = mkDatabase
            (mkTables
               (notes (data db) ++
                [moved_to_notes (notes_id_seq db) t (now e)])
               (filter (fun m => negb (trashed_is i (userId e) m))
                       (trashed_notes (data db))))
            (notes_id_seq db + 1) (trashed_notes_id_seq db) ->
    transition e db r db'
| tr_erased i t rest :
    req e = DeleteTrashedNote i ->
    filter (trashed_is i (userId e)) (trashed_notes (data db)) = t :: rest ->
    r = res 204 JNone ->
    db' = set_trashed_notes db
            (filter (fun m => negb (trashed_is i (userId e) m))
                    (trashed_notes (data db))) ->
    transition e db r db'.

(** A database the service can have produced: primary keys are unique and
    below their sequence, and the [note_id] of a trashed row is the id of a
    note that is no longer active and that no other trashed row names. *)
Record db_ok (d : database) : Prop := mk_db_ok {
  notes_below :
    forall n, In n (notes (data d)) -> Note.id n < notes_id_seq d;
  notes_unique : NoDup (map Note.id (notes (data d)));
  trashed_below :
    forall t, In t (trashed_notes (data d)) ->
              Trashed.id t < trashed_notes_id_seq d;
  trashed_unique : NoDup (map Trashed.id (trashed_notes (data d)));
  origin_below :
    forall t, In t (trashed_notes (data d)) ->
              Trashed.note_id t < notes_id_seq d;
  origin_unique : NoDup (map Trashed.note_id (trashed_notes (data d)));
  origin_gone :
    forall t n, In t (trashed_notes (data d)) -> In n (notes (data d)) ->
                Trashed.note_id t <> Note.id n
}.

(** No timestamp in the tables is later than [b]. *)
Definition recorded_until (b : Z) (d : database) : Prop :=
  (forall n, In n (notes (data d)) -> Note.updated_at n <= b) /\
  (forall t, In t (trashed_notes (data d)) ->
     Trashed.trashed_at t <= b /\
     forall T, Trashed.original_updated_at t = Some T -> T <= b).

(** Every trashed row was trashed no earlier than the note was last
    edited. *)
Definition trashed_after_edit (d : database) : Prop :=
  forall t T, In t (trashed_notes (data d)) ->
              Trashed.original_updated_at t = Some T ->
              T <= Trashed.trashed_at t.

(** The requests of [evs] are served at times that do not go back, none
    before [b]. *)
Fixpoint chronological (b : Z) (evs : list event) : Prop :=
  match evs with
  | [] => True
  | e :: evs' => b <= now e /\ chronological (now e) evs'
  end.

Fixpoint last_time (b : Z) (evs : list event) : Z :=
  match evs with
  | [] => b
  | e :: evs' => last_time (now e) evs'
  end.

(** Where a logical note is: the row that holds it changes id with every
    move between the tables. *)
Inductive whereabouts : Type :=
| Active (id : Z)
| InTrash (id : Z)
| Erased.

(** A logical note as it is followed: where it is now, and every id it has
    had as an active note and as a trashed note, the present one first. *)
Record tracked : Type := mkTracked {
  place : whereabouts;
  note_ids : list Z;
  trashed_ids : list Z
}.

(** The note after request [e], served on [db], was answered [r]: a trash
    of its active id answered 204 puts it under the next trashed id, a
    restore of its trashed id answered 200 under the id of the note in the
    answer, an erase of its trashed id answered 204 nowhere. *)
Definition follow (e : event) (db : database) (r : outcome response)
    (w : tracked) : tracked :=
  match r with
  | Thrown _ => w
  | Done r =>
      match place w, req e with
      | Active i, DeleteNote j =>
          if (i =? j) && (status r =? 204)
          then mkTracked (InTrash (trashed_notes_id_seq db)) (note_ids w)
                         (trashed_notes_id_seq db :: trashed_ids w)
          else w
      | InTrash k, PostRestore j =>
          match body r with
          | JNote n =>
              if (k =? j) && (status r =? 200)
              then mkTracked (Active (Note.id n)) (Note.id n :: note_ids w)
                             (trashed_ids w)
              else w
          | _ => w
          end
      | InTrash k, DeleteTrashedNote j =>
          if (k =? j) && (status r =? 204)
          then mkTracked Erased (note_ids w) (trashed_ids w)
          else w
      | _, _ => w
      end
  end.

Fixpoint track (evs : list event) (db : database) (w : tracked) : tracked :=
  match evs with
  | [] => w
  | e :: evs' =>
      track evs' (snd (serve e db)) (follow e db (fst (serve e db)) w)
  end.

Definition mem (x : Z) (l : list Z) : bool := existsb (Z.eqb x) l.

(** The rows that stand for the followed note: an active row under one of
    its note ids; a trashed row under one of its trashed ids, or whose
    [note_id] names one of its note ids. *)
Definition stands_in_notes (w : tracked) (n : Note.t) : bool :=
  mem (Note.id n) (note_ids w).

Definition stands_in_trash (w : tracked) (t : Trashed.t) : bool :=
  mem (Trashed.id t) (trashed_ids w) || mem (Trashed.note_id t) (note_ids w).

(** The note of owner [u] is exactly one row: where [w] says it is active,
    one active row stands for it, under the present id, and no trashed row
    does; where [w] says it is in the trash, one trashed row stands for it,
    under the present id, and no active row does; once erased, no row of
    either table stands for it. *)
Definition represented (u : Z) (d : database) (w : tracked) : Prop :=
  match place w with
  | Active i =>
      (exists n, filter (stands_in_notes w) (notes (data d)) = [n] /\
                 Note.id n = i /\ Note.user_id n = u) /\
      filter (stands_in_trash w) (trashed_notes (data d)) = []
  | InTrash k =>
      (exists t, filter (stands_in_trash w) (trashed_notes (data d)) = [t] /\
                 Trashed.id t = k /\ Trashed.user_id t = u) /\
      filter (stands_in_notes w) (notes (data d)) = []
  | Erased =>
      filter (stands_in_notes w) (notes (data d)) = [] /\
      filter (stands_in_trash w) (trashed_notes (data d)) = []
  end.

(** The note ids handed out while [evs] is served on [db]. *)
Definition assigned_by (e : event) (r : outcome response) : list Z :=
  match r with
  | Done r =>
      match req e, body r with
      | PostNotes _ _, JNote n =>
          if status r =? 201 then [Note.id n] else []
      | PostRestore _, JNote n =>
          if status r =? 200 then [Note.id n] else []
      | _, _ => []
      end
  | Thrown _ => []
  end.

Fixpoint assigned (evs : list event) (db : database) : list Z :=
  match evs with
  | [] => []
  | e :: evs' =>
      assigned_by e (fst (serve e db)) ++ assigned evs' (snd (serve e db))
  end.

(** The note identities a database records. *)
Definition known_ids (d : database) : list Z :=
  map Note.id (notes (data d)) ++
  map Trashed.note_id (trashed_notes (data d)).

(** A response that carries no row. *)
Definition refusal (r : response) : Prop :=
  (status r = 400 \/ status r = 404 \/ status r = 500) /\
  match body r with
  | JError _ | JErrors _ => True
  | _ => False
  end.

Definition not_found_note : response :=
  res 404 (JError "Note not found or not owned by user").

Definition not_found_trashed : response :=
  res 404 (JError "Trashed note not found or not owned by user").

(** The ids of a followed note are ids the sequences have handed out. *)
Definition ids_issued (d : database) (w : tracked) : Prop :=
  (forall x, In x (note_ids w) -> x < notes_id_seq d) /\
  (forall x, In x (trashed_ids w) -> x < trashed_notes_id_seq d).

(** The same, row by row; with unique keys it is [represented]. *)
Definition located (u : Z) (d : database) (w : tracked) : Prop :=
  ids_issued d w /\
  match place w with
  | Active i =>
      (exists n, In n (notes (data d)) /\ Note.id n = i /\
                 Note.user_id n = u) /\
      In i (note_ids w) /\
      (forall m, In m (notes (data d)) -> In (Note.id m) (note_ids w) ->
                 Note.id m = i) /\
      (forall t, In t (trashed_notes (data d)) ->
                 ~ In (Trashed.id t) (trashed_ids w) /\
                 ~ In (Trashed.note_id t) (note_ids w))
  | InTrash k =>
      (exists t, In t (trashed_notes (data d)) /\ Trashed.id t = k /\
                 Trashed.user_id t = u) /\
      In k (trashed_ids w) /\
      (forall t, In t (trashed_notes (data d)) ->
                 In (Trashed.id t) (trashed_ids w) \/
                 In (Trashed.note_id t) (note_ids w) ->
                 Trashed.id t = k) /\
      (forall m, In m (notes (data d)) -> ~ In (Note.id m) (note_ids w))
  | Erased =>
      (forall m, In m (notes (data d)) -> ~ In (Note.id m) (note_ids w)) /\
      (forall t, In t (trashed_notes (data d)) ->
                 ~ In (Trashed.id t) (trashed_ids w) /\
                 ~ In (Trashed.note_id t) (note_ids w))
  end.

(** Every [original_updated_at] in the trash is a whole number of
    milliseconds, as the trash route writes it. *)
Definition trashed_in_ms (d : database) : Prop :=
  forall t T, In t (trashed_notes (data d)) ->
              Trashed.original_updated_at t = Some T -> js_date T = T.

(** Route [h] refuses on [db]: with no fault it sends [answer]; whatever
    the faults it sends a refusal; the database stays as it is. *)
Definition refuses (h : (nat -> bool) -> exec response) (db : database)
    (answer : response) : Prop :=
  handle (h no_fault) db = (Done answer, db) /\
  forall f, exists r, handle (h f) db = (Done r, db) /\ refusal r.

(** No trashed row has id [k], and none will be given it. *)
Definition gone (k : Z) (d : database) : Prop :=
  k < trashed_notes_id_seq d /\
  forall t, In t (trashed_notes (data d)) -> Trashed.id t <> k.

(** Descending by [key]. *)
Definition desc {A : Type} (key : A -> Z) (a b : A) : Prop :=
  key b <= key a.

(** ** The scenario of the specification: note {A, B} created at 10,
    trashed at 20, restored at 30 *)

Definition sample_note : Note.t := Note.mk 1 1 "A" "B" 10 10.

(** The trashed row the service writes for [sample_note] at 20: the
    [updated_at] of 10 microseconds is stored as 0, the start of its
    millisecond. *)
Definition sample_trashed : Trashed.t :=
  Trashed.mk 1 1 1 "A" "B" 20 (Some 0).

(** A note written in the middle of a millisecond. *)
Definition fine_note : Note.t := Note.mk 1 1 "A" "B" 1234567 1234567.

Definition db_fine : database :=
  mkDatabase (mkTables [fine_note] []) 2 1.

(** The trashed row the service writes for [fine_note] at 2000000. *)
Definition fine_trashed : Trashed.t :=
  Trashed.mk 1 1 1 "A" "B" 2000000 (Some 1234000).

Definition db_fine_trashed : database :=
  mkDatabase (mkTables [] [fine_trashed]) 2 2.

Definition db_active : database :=
  mkDatabase (mkTables [sample_note] []) 2 1.

Definition db_trashed : database :=
  mkDatabase (mkTables [] [sample_trashed]) 2 2.

Definition other_note : Note.t := Note.mk 2 1 "C" "D" 15 15.

(** A note and a trashed note, both of user 1. *)
Definition db_mixed : database :=
  mkDatabase (mkTables [other_note] [sample_trashed]) 3 2.

Definition create_AB : event := mkEvent 1 10 no_fault (PostNotes "A" "B").

Definition create_CD : event := mkEvent 1 15 no_fault (PostNotes "C" "D").

Definition trash_1 : event := mkEvent 1 20 no_fault (DeleteNote 1).

Definition restore_1 : event := mkEvent 1 30 no_fault (PostRestore 1).

Definition erase_1 : event := mkEvent 1 30 no_fault (DeleteTrashedNote 1).

(** ** authMiddleware, in front of every route *)

(** A request as it reaches the application: the Authorization header, the
    time it is served at, the faults injected into its queries, the route
    called. *)
Record http_request : Type := mkHttp {
  authorization : option string;
  served_at : Z;
  plan : nat -> bool;
  call : request
}.

Section AuthGate.

(** [jwt.verify(token, process.env.JWT_SECRET)] at a given time: the [id] of
    the decoded payload, [None] when it throws (bad signature, expired). *)
Variable verify : Z -> string -> option Z.

Definition authMiddleware (now : Z) (token : option string)
    (next : Z -> exec response) : exec response :=
  match token with
  | None | Some EmptyString => ret (res 401 (JError "No token provided"))
  | Some token =>
      match verify now token with
      | Some id => next id
      | None => ret (res 401 (JError "Invalid token"))
      end
  end.

Definition application (h : http_request) : exec response :=
  authMiddleware (served_at h) (authorization h)
    (fun userId => route (mkEvent userId (served_at h) (plan h) (call h))).

End AuthGate.

(** ** More of what the proofs speak about *)

(** No active note has id [i], and none will be given it. *)
Definition gone_note (i : Z) (d : database) : Prop :=
  i < notes_id_seq d /\
  forall n, In n (notes (data d)) -> Note.id n <> i.

(** The rows of user [a]. *)
Definition notes_of (a : Z) (d : database) : list Note.t :=
  filter (fun n => Note.user_id n =? a) (notes (data d)).

Definition trashed_notes_of (a : Z) (d : database) : list Trashed.t :=
  filter (fun t => Trashed.user_id t =? a) (trashed_notes (data d)).

(** The number of rows of both tables. *)
Definition rows (d : database) : Z :=
  Z.of_nat (List.length (notes (data d))) +
  Z.of_nat (List.length (trashed_notes (data d))).

(** A string [trim] leaves as it is. *)
Definition trimmed (s : string) : Prop := Validator.trim s = s.

(** Every title and content in the tables is trimmed. *)
Definition trimmed_db (d : database) : Prop :=
  (forall n, In n (notes (data d)) ->
     trimmed (Note.title n) /\ trimmed (Note.content n)) /\
  (forall t, In t (trashed_notes (data d)) ->
     trimmed (Trashed.title t) /\ trimmed (Trashed.content t)).

(** The note a successful update leaves in place of [n]. *)
Definition updated_note (n : Note.t) (title content : string) (now : Z)
  : Note.t :=
  Note.mk (Note.id n) (Note.user_id n) (Validator.trim title)
          (Validator.trim content) (Note.created_at n) now.

(** ** The user service (user-service/index.js) and the users table *)

Module User.
Record t : Type := mk {
  id : Z;
  username : string;
  password : string;
  created_at : Z
}.
End User.

Record user_database : Type := mkUsers {
  users : list User.t;
  users_id_seq : Z
}.

Inductive user_payload : Type :=
| UErrors (fields : list string)
| URegistered (id : Z) (message : string)
| UToken (token : string)
| UError (error : string).

Record user_response : Type := ures {
  ustatus : Z;
  ubody : user_payload
}.

Section UserService.

(** What the libraries compute: [escape] of validator.js,
    [bcrypt.hash(password, 10)] under the salt it draws,
    [bcrypt.compare(password, hash)], and
    [jwt.sign({ id }, JWT_SECRET, { expiresIn: '1h' })] at a given time. *)
Variable escape : string -> string.
Variable bcrypt_hash : string -> string -> string.
Variable bcrypt_compare : string -> string -> bool.
Variable jwt_sign : Z -> Z -> string.

(** [body('username').isLength({ min: 3 }).trim().escape()] *)
Definition username_chain : list Validator.item :=
  [Validator.validator (Validator.isLength 3);
   Validator.sanitizer Validator.trim;
   Validator.sanitizer escape].

(** [body('password').isLength({ min: 6 })] *)
Definition password_chain : list Validator.item :=
  [Validator.validator (Validator.isLength 6)].

Definition credentialsResult (username password : string)
  : list string * (string * string) :=
  let '(username', ok_u) := Validator.run_chain username_chain username in
  let '(password', ok_p) := Validator.run_chain password_chain password in
  ((if ok_u then [] else ["username"%string]) ++
   (if ok_p then [] else ["password"%string]),
   (username', password')).

(** INSERT INTO users (username, password) VALUES ($1, $2) RETURNING id:
    the id is drawn first, then the row must fit VARCHAR(255) twice and
    respect UNIQUE (username) and the primary key. *)
Definition insert_into_users (username password : string) (now : Z)
    (d : user_database) : outcome Z * user_database :=
  let i := users_id_seq d in
  let d1 := mkUsers (users d) (i + 1) in
  if ((255 <? String.length username) || (255 <? String.length password))%nat
  then (Thrown "value too long for type character varying(255)", d1)
  else if existsb (fun u => String.eqb (User.username u) username) (users d)
          || existsb (fun u => User.id u =? i) (users d)
  then (Thrown "duplicate key value violates unique constraint", d1)
  else (Done i,
        mkUsers (users d ++ [User.mk i username password now]) (i + 1)).

(** SELECT * FROM users WHERE username = $1 *)
Definition select_user (username : string) (d : user_database)
  : list User.t :=
  filter (fun u => String.eqb (User.username u) username) (users d).

(** POST /register; [query_fails] makes its one query throw. *)
Definition register (query_fails : bool) (salt username password : string)
    (now : Z) (d : user_database) : user_response * user_database :=
  let '(errors, (username, password)) :=
    credentialsResult username password in
  match errors with
  | _ :: _ => (ures 400 (UErrors errors), d)
  | [] =>
      let hashedPassword := bcrypt_hash salt password in
      if query_fails
      then (ures 400 (UError "Username already exists or invalid input"), d)
      else
        match insert_into_users username hashedPassword now d with
        | (Done i, d') =>
            (ures 201 (URegistered i "User registered successfully"), d')
        | (Thrown _, d') =>
            (ures 400 (UError "Username already exists or invalid input"),
             d')
        end
  end.

(** POST /login *)
Definition login (query_fails : bool) (username password : string)
    (now : Z) (d : user_database) : user_response * user_database :=
  let '(errors, (username, password)) :=
    credentialsResult username password in
  match errors with
  | _ :: _ => (ures 400 (UErrors errors), d)
  | [] =>
      if query_fails then (ures 500 (UError "Server error"), d)
      else
        match select_user username d with
        | user :: _ =>
            if bcrypt_compare password (User.password user)
            then (ures 200 (UToken (jwt_sign now (User.id user))), d)
            else (ures 401 (UError "Invalid username or password"), d)
        | [] => (ures 401 (UError "Invalid username or password"), d)
        end
  end.

End UserService.

(** Users as the service leaves them: ids unique and below the sequence,
    usernames unique. *)
Record users_ok (d : user_database) : Prop := mk_users_ok {
  users_below : forall u, In u (users d) -> User.id u < users_id_seq d;
  users_unique : NoDup (map User.id (users d));
  usernames_unique : NoDup (map User.username (users d))
}.

(** Stand-ins for the libraries, for the examples. *)
Definition plain_hash (salt password : string) : string :=
  (salt ++ password)%string.

Definition plain_compare (password hash : string) : bool :=
  String.eqb hash ("salt" ++ password)%string.

Definition plain_sign (now id : Z) : string :=
  if id =? 2 then "token of 2"%string else "token"%string.

Definition plain_verify (now : Z) (token : string) : option Z :=
  if String.eqb token "token of 2" then Some 2 else None.

Definition one_user : user_database :=
  mkUsers [User.mk 1 "alice" "saltsecret" 5] 2.

(** ** The notes page of the client: its reducer and its autosave *)

Module NotesPage.

Record NoteState : Type := mkState {
  notes : list Note.t;
  selectedNoteId : option Z;
  newContent : string;
  originalContent : string;
  currentTitle : string;
  originalTitle : string;
  isTitleManual : bool;
  tempDeletedNote : option Note.t
}.

Inductive NoteAction : Type :=
| SET_NOTES (payload : list Note.t)
| SELECT_NOTE (id : option Z) (content title : string)
| UPDATE_CONTENT (content : string) (tempDeletedNote : option Note.t)
| SET_TITLE (title : string) (isManual : bool)
| RESET.

Definition noteReducer (state : NoteState) (action : NoteAction)
  : NoteState :=
  match action with
  | SET_NOTES payload =>
      mkState payload (selectedNoteId state) (newContent state)
              (originalContent state) (currentTitle state)
              (originalTitle state) (isTitleManual state)
              (tempDeletedNote state)
  | SELECT_NOTE id content title =>
      mkState (notes state) id content content title title
              (isTitleManual state) None
  | UPDATE_CONTENT content deleted =>
      mkState (notes state) (selectedNoteId state) content
              (originalContent state) (currentTitle state)
              (originalTitle state) (isTitleManual state)
              (match deleted with
               | Some n => Some n
               | None => tempDeletedNote state
               end)
  | SET_TITLE title isManual =>
      mkState (notes state) (selectedNoteId state) (newContent state)
              (originalContent state) title (originalTitle state) isManual
              (tempDeletedNote state)
  | RESET =>
      mkState (notes state) None "" "" "" "" false None
  end.

(** What a run of the autosave asks for. *)
Inductive autosave : Type :=
| Idle
| Post (title content : string)
| Put (id : Z) (title content : string)
| Reset.

(** A string in a condition: the empty one is false. *)
Definition truthy (s : string) : bool := negb (String.eqb s "").

(** [String.prototype.trim], on code units below 256. *)
Definition js_trim (s : string) : string := Validator.trim s.

Section Autosave.

(** [generateTitle], which reads the title off the parsed HTML. *)
Variable generateTitle : string -> string.

Definition addNote (token : string) (state : NoteState) : autosave :=
  if negb (truthy token) || negb (truthy (js_trim (newContent state)))
  then Idle
  else Post (currentTitle state) (newContent state).

Definition saveEdit (token : string) (state : NoteState) : autosave :=
  match selectedNoteId state with
  | None => Idle
  | Some id =>
      if negb (truthy token) then Idle
      else
        let contentToSave := newContent state in
        let titleToSave :=
          if truthy (currentTitle state) then currentTitle state
          else generateTitle contentToSave in
        match tempDeletedNote state with
        | Some _ =>
            if String.eqb contentToSave "" then Reset
            else Put id titleToSave contentToSave
        | None => Put id titleToSave contentToSave
        end
  end.

Definition debouncedSave (token : string) (state : NoteState) : autosave :=
  if negb (truthy token) || negb (truthy (js_trim (newContent state)))
  then Idle
  else
    match selectedNoteId state with
    | None => addNote token state
    | Some _ =>
        if negb (String.eqb (newContent state) (originalContent state))
           || negb (String.eqb (currentTitle state) (originalTitle state))
        then saveEdit token state
        else Idle
    end.

End Autosave.

End NotesPage.

(** ** Tactics: running a handler query by query *)

Ltac exec_unfold :=
  unfold serve, handle, route, create_note, get_notes, get_trashed_notes,
    trash_note, restore_note, erase_trashed_note, update_note, try_catch,
    bind, ret, query, BEGIN, COMMIT, ROLLBACK, seen, store, tick,
    insert_into_notes, insert_into_trashed_notes, select_note,
    select_trashed_note, delete_from_notes, delete_from_trashed_notes,
    update_notes, select_notes_of, select_trashed_notes_of,
    nextval_notes, nextval_trashed_notes, set_notes, set_trashed_notes in *.

Ltac exec_simpl :=
  cbn [fst snd server txn issued data notes trashed_notes notes_id_seq
       trashed_notes_id_seq map no_fault DEFAULT].

Ltac exec_case :=
  match goal with
  | |- context [if ?f ?k then _ else _] =>
      is_var f; let E := fresh "F" in destruct (f k) eqn:E
  | |- context [existsb ?p ?l] =>
      let E := fresh "K" in destruct (existsb p l) eqn:E
  | |- context [match filter ?p ?l with _ => _ end] =>
      let E := fresh "S" in destruct (filter p l) eqn:E
  | |- context [match map ?g (filter ?p ?l) with _ => _ end] =>
      let E := fresh "S" in destruct (filter p l) eqn:E
  end; exec_simpl.

Ltac idle := apply tr_none; cbn; auto 7; lia.

Ltac refused :=
  exec_simpl;
  match goal with
  | |- context [mkDatabase (data ?d) (notes_id_seq ?d) _] => destruct d
  | _ => idtac
  end;
  eexists; split; [reflexivity|]; cbn; unfold refusal; cbn; auto.

(** ** Lists *)

Lemma filter_nil_all {A : Type} (p : A -> bool) (l : list A) :
  filter p l = [] -> forall x, In x l -> p x = false.
Proof.
  intros H x Hx. destruct (p x) eqn:E; [|reflexivity].
  assert (In x (filter p l)) as Hin by (apply filter_In; auto).
  rewrite H in Hin; destruct Hin.
Qed.

Lemma all_filter_nil {A : Type} (p : A -> bool) (l : list A) :
  (forall x, In x l -> p x = false) -> filter p l = [].
Proof.
  induction l as [|a l IH]; cbn; intros H; [reflexivity|].
  rewrite (H a (or_introl eq_refl)). apply IH. intros x Hx; apply H; now right.
Qed.

Lemma filter_negb_none {A : Type} (p : A -> bool) (l : list A) :
  filter p l = [] -> filter (fun x => negb (p x)) l = l.
Proof.
  induction l as [|a l IH]; cbn; [reflexivity|].
  destruct (p a); cbn; [discriminate|]. intros H; now rewrite IH.
Qed.

Lemma map_if_none {A : Type} (p : A -> bool) (g : A -> A) (l : list A) :
  filter p l = [] -> map (fun x => if p x then g x else x) l = l.
Proof.
  induction l as [|a l IH]; cbn; [reflexivity|].
  destruct (p a); cbn; [discriminate|]. intros H; now rewrite IH.
Qed.

Lemma filter_head_in {A : Type} (p : A -> bool) l x rest :
  filter p l = x :: rest -> In x l /\ p x = true.
Proof.
  intros H. apply filter_In. rewrite H. now left.
Qed.

Lemma NoDup_map_filter {A B : Type} (g : A -> B) (p : A -> bool) (l : list A) :
  NoDup (map g l) -> NoDup (map g (filter p l)).
Proof.
  induction l as [|a l IH]; cbn; intros H; [constructor|].
  inversion H as [|? ? Hn Hd]; subst.
  destruct (p a); cbn; auto.
  constructor; auto.
  intros Hin. apply Hn. apply in_map_iff in Hin as (x & Hx & Hin).
  apply filter_In in Hin as [Hin _]. apply in_map_iff; eauto.
Qed.

Lemma NoDup_map_snoc {A : Type} (g : A -> Z) (l : list A) (x : A) :
  NoDup (map g l) -> (forall y, In y l -> g y <> g x) ->
  NoDup (map g (l ++ [x])).
Proof.
  intros Hd Hx. rewrite map_app. cbn.
  apply NoDup_app; [assumption|repeat constructor; intros []|].
  intros a Ha [<-|[]]. apply in_map_iff in Ha as (y & Hy & Hin).
  now apply (Hx y Hin).
Qed.

Lemma NoDup_map_same {A B : Type} (g : A -> B) (l : list A) (x y : A) :
  NoDup (map g l) -> In x l -> In y l -> g x = g y -> x = y.
Proof.
  induction l as [|a l IH]; cbn; intros Hd Hx Hy E; [destruct Hx|].
  inversion Hd as [|? ? Hn Hd']; subst.
  destruct Hx as [->|Hx], Hy as [->|Hy]; auto.
  - exfalso; apply Hn; rewrite E; now apply in_map.
  - exfalso; apply Hn; rewrite <- E; now apply in_map.
Qed.

(** With unique keys, the rows under a key are the one row that has it. *)
Lemma filter_key_single {A : Type} (g : A -> Z) (l : list A) (x : A) :
  NoDup (map g l) -> In x l ->
  filter (fun y => g y =? g x) l = [x].
Proof.
  induction l as [|a l IH]; cbn; intros Hd Hx; [destruct Hx|].
  inversion Hd as [|? ? Hn Hd']; subst.
  destruct Hx as [->|Hx].
  - rewrite Z.eqb_refl. f_equal. apply all_filter_nil.
    intros y Hy. apply Z.eqb_neq. intros E. apply Hn. rewrite <- E.
    now apply in_map.
  - replace (g a =? g x) with false; [auto|].
    symmetry; apply Z.eqb_neq. intros E. apply Hn. rewrite E.
    now apply in_map.
Qed.

(** ** Validation *)

Lemma run_chain_note_field (s : string) :
  Validator.run_chain note_field_chain s
  = (Validator.trim s, Validator.isLength 1 s).
Proof. unfold note_field_chain. simpl. now rewrite andb_true_r. Qed.

Lemma validationResult_eq (title content : string) :
  validationResult title content =
  ((if Validator.isLength 1 title then [] else ["title"%string]) ++
   (if Validator.isLength 1 content then [] else ["content"%string]),
   (Validator.trim title, Validator.trim content)).
Proof. unfold validationResult. now rewrite !run_chain_note_field. Qed.

Lemma validation_passes (title content : string) :
  fst (validationResult title content) = [] <->
  Validator.isLength 1 title = true /\ Validator.isLength 1 content = true.
Proof.
  rewrite validationResult_eq; cbn [fst].
  destruct (Validator.isLength 1 title), (Validator.isLength 1 content);
    cbn; intuition discriminate.
Qed.

Lemma isLength_1 (s : string) :
  Validator.isLength 1 s = true <-> s <> EmptyString.
Proof. destruct s; cbn; intuition (discriminate || congruence). Qed.

(** ** The handlers, query by query *)

Lemma same_data (d : database) :
  {| notes := notes (data d); trashed_notes := trashed_notes (data d) |}
  = data d.
Proof. now destruct d as [[? ?] ? ?]. Qed.

(** Every request is answered, and its effect is a [transition]. *)
Lemma serve_transition (e : event) (db : database) :
  exists r db', serve e db = (Done r, db') /\ transition e db r db'.
Proof.
  destruct e as [uid t f q]; destruct q; unfold serve, route;
    cbn [req userId now faults].
  - assert (V := validation_passes title content).
    unfold create_note. rewrite validationResult_eq.
    destruct (Validator.isLength 1 title), (Validator.isLength 1 content);
      cbn [app].
    2-4: (do 2 eexists; split; [reflexivity|idle]).
    exec_unfold; cbn. repeat exec_case.
    all: do 2 eexists; split; try reflexivity; try idle.
    eapply tr_created; cbn; try reflexivity. now apply V.
  - exec_unfold; cbn. repeat exec_case.
    all: do 2 eexists; split; try reflexivity; idle.
  - exec_unfold; cbn. repeat exec_case.
    all: do 2 eexists; split; try reflexivity; idle.
  - exec_unfold; cbn. repeat exec_case.
    all: do 2 eexists; split; try reflexivity; try idle.
    eapply tr_trashed; cbn; eauto.
  - exec_unfold; cbn. repeat exec_case.
    all: do 2 eexists; split; try reflexivity; try idle.
    eapply tr_restored; cbn; eauto.
  - exec_unfold; cbn. repeat exec_case.
    all: do 2 eexists; split; try reflexivity; try idle.
    + apply tr_none; cbn; auto 7; try lia.
      rewrite (filter_negb_none _ _ S). apply same_data.
    + eapply tr_erased; cbn; eauto.
  - assert (V := validation_passes title content).
    unfold update_note. rewrite validationResult_eq.
    destruct (Validator.isLength 1 title), (Validator.isLength 1 content);
      cbn [app].
    2-4: (do 2 eexists; split; [reflexivity|idle]).
    exec_unfold; cbn. repeat exec_case.
    all: do 2 eexists; split; try reflexivity; try idle.
    + apply tr_none; cbn; auto 7; try lia.
      rewrite (map_if_none _ _ _ S). apply same_data.
    + eapply tr_updated; cbn; eauto. now apply V.
Qed.

Lemma serve_transition_of (e : event) (db db' : database)
    (r : outcome response) :
  serve e db = (r, db') ->
  exists r', r = Done r' /\ transition e db r' db'.
Proof.
  intros H. destruct (serve_transition e db) as (r' & d & E & T).
  rewrite E in H. inversion H; subst. eauto.
Qed.

(** ** Well-formed databases stay well-formed *)

Lemma map_id_update (p : Note.t -> bool) title content now l :
  map Note.id
      (map (fun m => if p m then update_row title content now m else m) l)
  = map Note.id l.
Proof.
  induction l as [|a l IH]; cbn; [reflexivity|]. rewrite IH.
  now destruct (p a).
Qed.

Lemma in_update (p : Note.t -> bool) title content now l n :
  In n (map (fun m => if p m then update_row title content now m else m) l) ->
  exists m, In m l /\ Note.id n = Note.id m /\
            Note.user_id n = Note.user_id m /\
            (n = m \/ Note.updated_at n = now).
Proof.
  intros H. apply in_map_iff in H as (m & <- & Hin). exists m.
  destruct (p m); cbn; auto.
Qed.

Lemma db_ok_empty : db_ok empty_db.
Proof. constructor; cbn; try apply NoDup_nil; intros; contradiction. Qed.

Lemma transition_ok e db r db' :
  db_ok db -> transition e db r db' -> db_ok db'.
Proof.
  intros [nb nu tb tu ob ou og] T.
  destruct T as [Hd Hn Ht _ | title content n _ _ -> _ ->
                | i title content n rest _ _ S _ ->
                | i n rest _ S _ -> | i t rest _ S _ -> | i t rest _ S _ ->].
  - constructor; rewrite ?Hd; auto; intros x Hx.
    + specialize (nb x Hx); lia.
    + specialize (tb x Hx); lia.
    + specialize (ob x Hx); lia.
  - constructor; cbn; auto.
    + intros m [Hm|[<-|[]]]%in_app_or; [specialize (nb m Hm)|cbn]; lia.
    + apply NoDup_map_snoc; auto. intros y Hy; specialize (nb y Hy); cbn; lia.
    + intros x Hx; specialize (ob x Hx); lia.
    + intros x m Hx [Hm|[<-|[]]]%in_app_or; auto.
      specialize (ob x Hx); cbn; lia.
  - constructor; cbn; auto.
    + intros m (m0 & Hm0 & -> & _)%in_update; auto.
    + now rewrite map_id_update.
    + intros x m Hx (m0 & Hm0 & -> & _)%in_update; auto.
  - apply filter_head_in in S as [Hn Hp].
    constructor; cbn.
    + intros m [Hm _]%filter_In; auto.
    + now apply NoDup_map_filter.
    + intros x [Hx|[<-|[]]]%in_app_or; [specialize (tb x Hx)|cbn]; lia.
    + apply NoDup_map_snoc; auto. intros y Hy; specialize (tb y Hy); cbn; lia.
    + intros x [Hx|[<-|[]]]%in_app_or; [auto|cbn; auto].
    + apply NoDup_map_snoc; auto. intros y Hy; cbn. now apply og.
    + intros x m [Hx|[<-|[]]]%in_app_or [Hm Hq]%filter_In; [auto|cbn].
      intros E. assert (n = m) by (eapply NoDup_map_same; eauto). subst m.
      rewrite Hp in Hq; discriminate.
  - apply filter_head_in in S as [Hn Hp].
    constructor; cbn.
    + intros m [Hm|[<-|[]]]%in_app_or; [specialize (nb m Hm)|cbn]; lia.
    + apply NoDup_map_snoc; auto. intros y Hy; specialize (nb y Hy); cbn; lia.
    + intros x [Hx _]%filter_In; auto.
    + now apply NoDup_map_filter.
    + intros x [Hx _]%filter_In; specialize (ob x Hx); lia.
    + now apply NoDup_map_filter.
    + intros x m [Hx _]%filter_In [Hm|[<-|[]]]%in_app_or; auto.
      specialize (ob x Hx); cbn; lia.
  - constructor; cbn; auto.
    + intros x [Hx _]%filter_In; auto.
    + now apply NoDup_map_filter.
    + intros x [Hx _]%filter_In; auto.
    + now apply NoDup_map_filter.
    + intros x m [Hx _]%filter_In Hm; auto.
Qed.

Lemma serve_ok e db : db_ok db -> db_ok (snd (serve e db)).
Proof.
  intros H. destruct (serve_transition e db) as (r & db' & -> & T).
  eapply transition_ok; eauto.
Qed.

Lemma run_ok evs : forall db, db_ok db -> db_ok (run evs db).
Proof.
  induction evs as [|e evs IH]; cbn; intros db H; auto using serve_ok.
Qed.

Lemma assigned_app evs1 evs2 db :
  assigned (evs1 ++ evs2) db
  = assigned evs1 db ++ assigned evs2 (run evs1 db).
Proof.
  revert db; induction evs1 as [|e evs1 IH]; cbn; intros db; auto.
  now rewrite IH, app_assoc.
Qed.

Lemma run_app evs1 evs2 db : run (evs1 ++ evs2) db = run evs2 (run evs1 db).
Proof.
  revert db; induction evs1 as [|e evs1 IH]; cbn; intros db; auto.
Qed.

Lemma fresh_note_id db :
  db_ok db ->
  existsb (fun n => Note.id n =? notes_id_seq db) (notes (data db)) = false.
Proof.
  intros H. destruct (existsb _ _) eqn:E; [|reflexivity].
  apply existsb_exists in E as (n & Hn & E%Z.eqb_eq).
  pose proof (notes_below _ H n Hn); lia.
Qed.

Lemma fresh_trashed_id db :
  db_ok db ->
  existsb (fun t => Trashed.id t =? trashed_notes_id_seq db)
          (trashed_notes (data db)) = false.
Proof.
  intros H. destruct (existsb _ _) eqn:E; [|reflexivity].
  apply existsb_exists in E as (n & Hn & E%Z.eqb_eq).
  pose proof (trashed_below _ H n Hn); lia.
Qed.

(** The one row a note id selects for its owner. *)
Lemma select_note_single db n :
  db_ok db -> In n (notes (data db)) ->
  filter (note_is (Note.id n) (Note.user_id n)) (notes (data db)) = [n].
Proof.
  intros H Hn.
  rewrite <- (filter_key_single Note.id _ n (notes_unique _ H) Hn).
  apply filter_ext_in. intros m Hm. unfold note_is.
  destruct (Note.id m =? Note.id n) eqn:E; [|reflexivity].
  apply Z.eqb_eq in E.
  assert (m = n) by (eapply NoDup_map_same; eauto using notes_unique).
  subst. now rewrite Z.eqb_refl.
Qed.

Lemma select_trashed_single db t :
  db_ok db -> In t (trashed_notes (data db)) ->
  filter (trashed_is (Trashed.id t) (Trashed.user_id t))
         (trashed_notes (data db)) = [t].
Proof.
  intros H Ht.
  rewrite <- (filter_key_single Trashed.id _ t (trashed_unique _ H) Ht).
  apply filter_ext_in. intros m Hm. unfold trashed_is.
  destruct (Trashed.id m =? Trashed.id t) eqn:E; [|reflexivity].
  apply Z.eqb_eq in E.
  assert (m = t) by (eapply NoDup_map_same; eauto using trashed_unique).
  subst. now rewrite Z.eqb_refl.
Qed.

(** A selection by id and owner has at most that one row. *)
Lemma select_note_alone db i u n rest :
  db_ok db -> filter (note_is i u) (notes (data db)) = n :: rest ->
  rest = [] /\ In n (notes (data db)) /\ Note.id n = i /\ Note.user_id n = u.
Proof.
  intros H S. pose proof (filter_head_in _ _ _ _ S) as [Hn Hp].
  unfold note_is in Hp.
  apply andb_true_iff in Hp as [Hi%Z.eqb_eq Hu%Z.eqb_eq].
  pose proof (select_note_single db n H Hn) as S'.
  rewrite Hi, Hu, S in S'. inversion S'. auto.
Qed.

Lemma select_trashed_alone db k u t rest :
  db_ok db ->
  filter (trashed_is k u) (trashed_notes (data db)) = t :: rest ->
  rest = [] /\ In t (trashed_notes (data db)) /\ Trashed.id t = k /\
  Trashed.user_id t = u.
Proof.
  intros H S. pose proof (filter_head_in _ _ _ _ S) as [Ht Hp].
  unfold trashed_is in Hp.
  apply andb_true_iff in Hp as [Hi%Z.eqb_eq Hu%Z.eqb_eq].
  pose proof (select_trashed_single db t H Ht) as S'.
  rewrite Hi, Hu, S in S'. inversion S'. auto.
Qed.

(** Nobody else's id selects it. *)
Lemma select_note_foreign db n uid :
  db_ok db -> In n (notes (data db)) -> Note.user_id n <> uid ->
  filter (note_is (Note.id n) uid) (notes (data db)) = [].
Proof.
  intros H Hn Hu. apply all_filter_nil. intros m Hm. unfold note_is.
  destruct (Note.id m =? Note.id n) eqn:E; [|reflexivity].
  apply Z.eqb_eq in E.
  assert (m = n) by (eapply NoDup_map_same; eauto using notes_unique).
  subst. cbn. now apply Z.eqb_neq.
Qed.

Lemma select_trashed_foreign db t uid :
  db_ok db -> In t (trashed_notes (data db)) -> Trashed.user_id t <> uid ->
  filter (trashed_is (Trashed.id t) uid) (trashed_notes (data db)) = [].
Proof.
  intros H Ht Hu. apply all_filter_nil. intros m Hm. unfold trashed_is.
  destruct (Trashed.id m =? Trashed.id t) eqn:E; [|reflexivity].
  apply Z.eqb_eq in E.
  assert (m = t) by (eapply NoDup_map_same; eauto using trashed_unique).
  subst. cbn. now apply Z.eqb_neq.
Qed.

Lemma db_eta (d : database) :
  {| data := data d; notes_id_seq := notes_id_seq d;
     trashed_notes_id_seq := trashed_notes_id_seq d |} = d.
Proof. now destruct d. Qed.

Lemma same_db (d : database) :
  {| data := {| notes := notes (data d);
                trashed_notes := trashed_notes (data d) |};
     notes_id_seq := notes_id_seq d;
     trashed_notes_id_seq := trashed_notes_id_seq d |} = d.
Proof. now destruct d as [[? ?] ? ?]. Qed.

Lemma snd_serve_ok e db r db' :
  db_ok db -> serve e db = (r, db') -> db_ok db'.
Proof. intros H E. pose proof (serve_ok e db H) as K. now rewrite E in K. Qed.

Lemma db_ok_active : db_ok db_active.
Proof.
  change db_active with (snd (serve create_AB empty_db)).
  apply serve_ok, db_ok_empty.
Qed.

Lemma db_ok_mixed : db_ok db_mixed.
Proof.
  constructor; cbn;
    try (repeat constructor; cbn; tauto);
    intros; intuition (subst; cbn in *; lia).
Qed.

Lemma db_ok_trashed : db_ok db_trashed.
Proof.
  change db_trashed with (snd (serve trash_1 db_active)).
  apply serve_ok, db_ok_active.
Qed.

(** ** The routes when nothing fails *)

Lemma create_served db uid title content t :
  db_ok db -> fst (validationResult title content) = [] ->
  serve (mkEvent uid t no_fault (PostNotes title content)) db =
  (Done (res 201 (JNote (Note.mk (notes_id_seq db) uid (Validator.trim title)
                                 (Validator.trim content) t t))),
   mkDatabase
     (mkTables (notes (data db) ++
                [Note.mk (notes_id_seq db) uid (Validator.trim title)
                         (Validator.trim content) t t])
               (trashed_notes (data db)))
     (notes_id_seq db + 1) (trashed_notes_id_seq db)).
Proof.
  intros H [Lt Lc]%validation_passes.
  unfold serve, route; cbn [req userId now faults]. unfold create_note.
  rewrite validationResult_eq, Lt, Lc; cbn [app].
  exec_unfold; exec_simpl. now rewrite (fresh_note_id _ H).
Qed.

Lemma trash_served db uid i t n rest :
  db_ok db -> filter (note_is i uid) (notes (data db)) = n :: rest ->
  handle (trash_note no_fault uid i t) db =
  (Done (res 204 JNone),
   mkDatabase
     (mkTables (filter (fun m => negb (note_is i uid m)) (notes (data db)))
               (trashed_notes (data db) ++
                [moved_to_trash (trashed_notes_id_seq db) n t]))
     (notes_id_seq db) (trashed_notes_id_seq db + 1)).
Proof.
  intros H S. exec_unfold; exec_simpl. rewrite S; exec_simpl.
  now rewrite (fresh_trashed_id _ H).
Qed.

Lemma restore_served db uid k now t rest :
  db_ok db ->
  filter (trashed_is k uid) (trashed_notes (data db)) = t :: rest ->
  handle (restore_note no_fault uid k now) db =
  (Done (res 200 (JNote (moved_to_notes (notes_id_seq db) t now))),
   mkDatabase
     (mkTables (notes (data db) ++ [moved_to_notes (notes_id_seq db) t now])
               (filter (fun m => negb (trashed_is k uid m))
                       (trashed_notes (data db))))
     (notes_id_seq db + 1) (trashed_notes_id_seq db)).
Proof.
  intros H S. exec_unfold; exec_simpl. rewrite S; exec_simpl.
  now rewrite (fresh_note_id _ H).
Qed.

(** ** Timestamps under a clock that does not go back *)

Lemma js_date_le (t : Z) : js_date t <= t.
Proof. unfold js_date. apply Z.mul_div_le. lia. Qed.

Lemma js_date_whole (t : Z) : js_date (js_date t) = js_date t.
Proof.
  unfold js_date. f_equal. rewrite Z.mul_comm. apply Z.div_mul. lia.
Qed.

Lemma js_date_close (t : Z) : t - 1000 < js_date t.
Proof.
  unfold js_date. pose proof (Z.mod_pos_bound t 1000 ltac:(lia)).
  pose proof (Z.div_mod t 1000 ltac:(lia)). lia.
Qed.

Lemma transition_recorded b e db r db' :
  recorded_until b db -> b <= now e -> transition e db r db' ->
  recorded_until (now e) db'.
Proof.
  intros [Rn Rt] Le T.
  assert (Rt' : forall t, In t (trashed_notes (data db)) ->
                  Trashed.trashed_at t <= now e /\
                  forall T, Trashed.original_updated_at t = Some T ->
                            T <= now e).
  { intros t Ht. destruct (Rt t Ht) as [A B]. split; [lia|].
    intros T0 E0. specialize (B T0 E0). lia. }
  assert (Rn' : forall n, In n (notes (data db)) ->
                          Note.updated_at n <= now e).
  { intros n Hn. specialize (Rn n Hn). lia. }
  destruct T as [Hd Hn Ht _ | title content n _ _ -> _ ->
                | i title content n rest _ _ S _ ->
                | i n rest _ S _ -> | i t rest _ S _ -> | i t rest _ S _ ->];
    split; cbn; rewrite ?Hd; auto.
  - intros m [Hm|[<-|[]]]%in_app_or; auto. cbn; lia.
  - intros m (m0 & Hm0 & _ & _ & [-> | ->])%in_update; auto. lia.
  - intros m [Hm _]%filter_In; auto.
  - apply filter_head_in in S as [Hn _].
    intros x [Hx|[<-|[]]]%in_app_or; auto. cbn. split; [lia|].
    intros T0 E0. inversion E0; subst.
    pose proof (js_date_le (Note.updated_at n)). specialize (Rn' n Hn).
    unfold js_date in *. lia.
  - apply filter_head_in in S as [Ht _].
    intros m [Hm|[<-|[]]]%in_app_or; auto. cbn.
    destruct (Trashed.original_updated_at t) as [T0|] eqn:E0; cbn; [|lia].
    destruct (Rt' t Ht) as [_ K]. specialize (K T0 E0).
    pose proof (js_date_le T0). unfold js_date in *. lia.
  - intros x [Hx _]%filter_In; auto.
  - intros x [Hx _]%filter_In; auto.
Qed.

Lemma run_recorded evs :
  forall b db,
    recorded_until b db -> chronological b evs ->
    recorded_until (last_time b evs) (run evs db).
Proof.
  induction evs as [|e evs IH]; cbn; intros b db R C; [assumption|].
  destruct C as [Le C].
  destruct (serve_transition e db) as (r & db' & E & T). rewrite E; cbn.
  apply IH; [|assumption]. eapply transition_recorded; eauto.
Qed.

Lemma transition_trashed_after_edit b e db r db' :
  recorded_until b db -> b <= now e -> trashed_after_edit db ->
  transition e db r db' -> trashed_after_edit db'.
Proof.
  intros [Rn _] Le A T.
  destruct T as [Hd Hn Ht _ | title content n _ _ -> _ ->
                | i title content n rest _ _ S _ ->
                | i n rest _ S _ -> | i t rest _ S _ -> | i t rest _ S _ ->];
    unfold trashed_after_edit; cbn; rewrite ?Hd; auto.
  - apply filter_head_in in S as [Hn _].
    intros x T0 [Hx|[<-|[]]]%in_app_or E0; [now apply (A x)|].
    cbn in *. inversion E0; subst. specialize (Rn n Hn).
    pose proof (js_date_le (Note.updated_at n)). unfold js_date in *. lia.
  - intros x T0 [Hx _]%filter_In; now apply A.
  - intros x T0 [Hx _]%filter_In; now apply A.
Qed.

(** X22: over any run of requests served under a clock that does not go
    back, every trashed row has [trashed_at] at or after
    [original_updated_at], given that it was so at the start. *)
Lemma run_trashed_after_edit evs :
  forall b db,
    recorded_until b db -> trashed_after_edit db -> chronological b evs ->
    trashed_after_edit (run evs db).
Proof.
  induction evs as [|e evs IH]; cbn; intros b db R A C; [assumption|].
  destruct C as [Le C].
  destruct (serve_transition e db) as (r & db' & E & T). rewrite E; cbn.
  apply (IH (now e)); [|eapply transition_trashed_after_edit; eauto|exact C].
  eapply transition_recorded; eauto.
Qed.

Lemma recorded_empty b : recorded_until b empty_db.
Proof. split; intros ? []. Qed.

(** ** Round trip *)

(** X23: for every valid (title, content), creating a note, trashing it and
    restoring it yields an active note with the title and the content the
    note had just before it was trashed, and with its [updated_at] cut to
    the millisecond: the same [updated_at] when the note was written on a
    whole millisecond, and less than a millisecond earlier otherwise. *)
Theorem round_trip_to_the_millisecond :
  forall db uid title content t0 t1 t2,
    db_ok db ->
    fst (validationResult title content) = [] ->
    exists n db1 tr db2 n' db3,
      serve (mkEvent uid t0 no_fault (PostNotes title content)) db
      = (Done (res 201 (JNote n)), db1) /\
      In n (notes (data db1)) /\
      serve (mkEvent uid t1 no_fault (DeleteNote (Note.id n))) db1
      = (Done (res 204 JNone), db2) /\
      ~ In n (notes (data db2)) /\
      In tr (trashed_notes (data db2)) /\
      Trashed.note_id tr = Note.id n /\
      serve (mkEvent uid t2 no_fault (PostRestore (Trashed.id tr))) db2
      = (Done (res 200 (JNote n')), db3) /\
      In n' (notes (data db3)) /\
      ~ In tr (trashed_notes (data db3)) /\
      Note.title n' = Note.title n /\
      Note.content n' = Note.content n /\
      Note.updated_at n' = js_date (Note.updated_at n) /\
      (js_date t0 = t0 -> Note.updated_at n' = Note.updated_at n) /\
      Note.updated_at n - 1000 < Note.updated_at n' <= Note.updated_at n.
Proof.
  intros db uid title content t0 t1 t2 H V.
  pose proof (create_served db uid title content t0 H V) as E1.
  set (n := Note.mk _ _ _ _ _ _) in E1.
  match type of E1 with _ = (_, ?d) => set (db1 := d) in E1 end.
  assert (H1 : db_ok db1) by (eapply snd_serve_ok; eauto).
  assert (In1 : In n (notes (data db1))) by (cbn; apply in_or_app; cbn; auto).
  pose proof (select_note_single db1 n H1 In1) as S1.
  pose proof (trash_served db1 uid (Note.id n) t1 n [] H1 S1) as E2.
  set (tr := moved_to_trash _ _ _) in E2.
  match type of E2 with _ = (_, ?d) => set (db2 := d) in E2 end.
  assert (H2 : db_ok db2) by
    (eapply (snd_serve_ok (mkEvent uid t1 no_fault (DeleteNote (Note.id n))));
     eauto).
  assert (In2 : In tr (trashed_notes (data db2)))
    by (cbn; apply in_or_app; cbn; auto).
  pose proof (select_trashed_single db2 tr H2 In2) as S2.
  pose proof (restore_served db2 uid (Trashed.id tr) t2 tr [] H2 S2) as E3.
  set (n' := moved_to_notes _ _ _) in E3.
  match type of E3 with _ = (_, ?d) => set (db3 := d) in E3 end.
  exists n, db1, tr, db2, n', db3.
  do 2 (split; [assumption|]). split; [exact E2|]. split.
  { intros [_ K]%filter_In.
    unfold note_is in K; cbn in K. now rewrite !Z.eqb_refl in K. }
  do 2 (split; [auto|]). split; [exact E3|]. split.
  { cbn; apply in_or_app; cbn; auto. }
  split.
  { intros [_ K]%filter_In.
    unfold trashed_is in K; cbn in K. now rewrite !Z.eqb_refl in K. }
  do 2 (split; [reflexivity|]). cbn.
  rewrite js_date_whole. split; [reflexivity|]. split.
  - intros E; exact E.
  - pose proof (js_date_le t0). pose proof (js_date_close t0). lia.
Qed.

Lemma round_trip_to_the_millisecond_witness :
  exists n db1 tr db2 n' db3,
    serve (mkEvent 1 10000 no_fault (PostNotes " A" "B ")) empty_db
    = (Done (res 201 (JNote n)), db1) /\
    In n (notes (data db1)) /\
    serve (mkEvent 1 20000 no_fault (DeleteNote (Note.id n))) db1
    = (Done (res 204 JNone), db2) /\
    ~ In n (notes (data db2)) /\
    In tr (trashed_notes (data db2)) /\
    Trashed.note_id tr = Note.id n /\
    serve (mkEvent 1 30000 no_fault (PostRestore (Trashed.id tr))) db2
    = (Done (res 200 (JNote n')), db3) /\
    In n' (notes (data db3)) /\
    ~ In tr (trashed_notes (data db3)) /\
    Note.title n' = Note.title n /\
    Note.content n' = Note.content n /\
    Note.updated_at n' = js_date (Note.updated_at n) /\
    (js_date 10000 = 10000 -> Note.updated_at n' = Note.updated_at n) /\
    Note.updated_at n - 1000 < Note.updated_at n' <= Note.updated_at n.
Proof.
  apply (round_trip_to_the_millisecond empty_db 1 " A" "B " 10000 20000
           30000).
  - exact db_ok_empty.
  - reflexivity.
Defined.

(** C1, as the code has it: a note created at 1234567 microseconds,
    trashed and restored comes back with [updated_at] 1234000: the routes
    read the timestamp into a JS Date and send that back, so the round trip
    keeps title and content but not [updated_at]. *)
Theorem round_trip_loses_microseconds :
  serve (mkEvent 1 1234567 no_fault (PostNotes "A" "B")) empty_db
  = (Done (res 201 (JNote fine_note)), db_fine) /\
  serve (mkEvent 1 2000000 no_fault (DeleteNote 1)) db_fine
  = (Done (res 204 JNone), db_fine_trashed) /\
  serve (mkEvent 1 3000000 no_fault (PostRestore 1)) db_fine_trashed
  = (Done (res 200 (JNote (Note.mk 2 1 "A" "B" 3000000 1234000))),
     mkDatabase (mkTables [Note.mk 2 1 "A" "B" 3000000 1234000] []) 3 2) /\
  Note.updated_at (Note.mk 2 1 "A" "B" 3000000 1234000)
  <> Note.updated_at fine_note.
Proof. repeat split; discriminate. Qed.

(** X25: the loss shows in the listings. Of two notes written within one
    millisecond the later one is listed first by GET /notes; once it has
    been trashed and restored, with nothing edited, it is listed last. *)
Theorem round_trip_reorders_listing :
  fst (serve (mkEvent 1 4000000 no_fault GetNotes)
         (run [mkEvent 1 1234100 no_fault (PostNotes "A" "B");
               mkEvent 1 1234567 no_fault (PostNotes "C" "D")] empty_db))
  = Done (res 200 (JNotes [Note.mk 2 1 "C" "D" 1234567 1234567;
                           Note.mk 1 1 "A" "B" 1234100 1234100])) /\
  fst (serve (mkEvent 1 4000000 no_fault GetNotes)
         (run [mkEvent 1 1234100 no_fault (PostNotes "A" "B");
               mkEvent 1 1234567 no_fault (PostNotes "C" "D");
               mkEvent 1 2000000 no_fault (DeleteNote 2);
               mkEvent 1 3000000 no_fault (PostRestore 1)] empty_db))
  = Done (res 200 (JNotes [Note.mk 1 1 "A" "B" 1234100 1234100;
                           Note.mk 3 1 "C" "D" 3000000 1234000])).
Proof. split; reflexivity. Qed.

(** ** Atomicity of the move to trash *)

(** C2: when the note has been read and a later step of the trash route
    fails (the INSERT, the DELETE after the INSERT has run, or the COMMIT),
    the route answers 500, never a success, and the tables are as before:
    the note is still active and no trashed note has appeared. *)
Theorem trash_is_atomic :
  forall f uid i t db n rest,
    filter (note_is i uid) (notes (data db)) = n :: rest ->
    f 0%nat = false -> f 1%nat = false ->
    f 2%nat = true \/ f 3%nat = true \/ f 4%nat = true ->
    exists db',
      handle (trash_note f uid i t) db
      = (Done (res 500 (JError "Failed to move note to trash")), db') /\
      data db' = data db /\
      In n (notes (data db')) /\
      trashed_notes (data db') = trashed_notes (data db).
Proof.
  intros f uid i t db n rest S F0 F1 F.
  assert (In n (notes (data db))) by (eapply filter_head_in; eauto).
  exec_unfold; exec_simpl. rewrite F0; exec_simpl. rewrite F1; exec_simpl.
  rewrite S; exec_simpl.
  destruct (f 2%nat) eqn:F2; exec_simpl; [eauto 6|].
  destruct (existsb _ _); exec_simpl; [eauto 6|].
  destruct (f 3%nat) eqn:F3; exec_simpl; [eauto 6|].
  destruct (f 4%nat) eqn:F4; exec_simpl; [eauto 6|].
  destruct F as [|[|]]; discriminate.
Qed.

Lemma trash_is_atomic_witness :
  exists db',
    handle (trash_note (fail_at 3) 1 1 20) db_active
    = (Done (res 500 (JError "Failed to move note to trash")), db') /\
    data db' = data db_active /\
    In sample_note (notes (data db')) /\
    trashed_notes (data db') = trashed_notes (data db_active).
Proof.
  apply (trash_is_atomic (fail_at 3) 1 1 20 db_active sample_note []).
  - reflexivity.
  - reflexivity.
  - reflexivity.
  - right; left; reflexivity.
Defined.

(** ** Timestamps across the move *)

Lemma transition_trashed_in_ms e db r db' :
  trashed_in_ms db -> transition e db r db' -> trashed_in_ms db'.
Proof.
  intros A T.
  destruct T as [Hd Hn Ht _ | title content n _ _ -> _ ->
                | i title content n rest _ _ S _ ->
                | i n rest _ S _ -> | i t rest _ S _ -> | i t rest _ S _ ->];
    unfold trashed_in_ms; cbn; rewrite ?Hd; auto.
  - intros x T0 [Hx|[<-|[]]]%in_app_or E0; [now apply (A x)|].
    cbn in E0. inversion E0; subst. apply js_date_whole.
  - intros x T0 [Hx _]%filter_In; now apply A.
  - intros x T0 [Hx _]%filter_In; now apply A.
Qed.

(** The trash holds whole milliseconds after any run of requests that
    started with such a trash, the empty one for instance: the trash route
    is the only one that writes [original_updated_at]. *)
Lemma run_trashed_in_ms evs :
  forall db, trashed_in_ms db -> trashed_in_ms (run evs db).
Proof.
  induction evs as [|e evs IH]; cbn; intros db A; [assumption|].
  destruct (serve_transition e db) as (r & db' & E & T). rewrite E; cbn.
  apply IH. eapply transition_trashed_in_ms; eauto.
Qed.

Lemma trashed_in_ms_empty : trashed_in_ms empty_db.
Proof. intros t T []. Qed.

(** C3: restoring a trashed note that the service has trashed (its
    [original_updated_at], if present, is a whole number of milliseconds, as
    the trash route writes it) yields an active note whose [updated_at] is
    the trashed note's [original_updated_at] when that is present, and the
    time of the restore when it is absent; with a clock that has moved on
    since the last recorded timestamp, it is the time of the restore only
    when [original_updated_at] is absent. *)
Theorem restore_keeps_original_updated_at :
  forall db uid t now,
    db_ok db ->
    trashed_in_ms db ->
    In t (trashed_notes (data db)) ->
    Trashed.user_id t = uid ->
    exists n db',
      handle (restore_note no_fault uid (Trashed.id t) now) db
      = (Done (res 200 (JNote n)), db') /\
      In n (notes (data db')) /\
      (forall T, Trashed.original_updated_at t = Some T ->
                 Note.updated_at n = T) /\
      (Trashed.original_updated_at t = None -> Note.updated_at n = now) /\
      (forall b, recorded_until b db -> b < now ->
                 (Note.updated_at n = now <->
                  Trashed.original_updated_at t = None)).
Proof.
  intros db uid t now H A Ht <-.
  pose proof (select_trashed_single db t H Ht) as S.
  rewrite (restore_served db _ _ now t [] H S).
  do 2 eexists; split; [reflexivity|]. cbn.
  split; [apply in_or_app; cbn; auto|].
  destruct (Trashed.original_updated_at t) as [T|] eqn:E; cbn.
  - rewrite (A t T Ht E).
    split; [congruence|]. split; [discriminate|].
    intros b [_ Hb] Lt. destruct (Hb t Ht) as [_ K]. specialize (K T E).
    split; [lia|discriminate].
  - split; [discriminate|]. split; [reflexivity|]. intros; tauto.
Qed.

Lemma restore_keeps_original_updated_at_witness :
  exists n db',
    handle (restore_note no_fault 1 1 3000000) db_fine_trashed
    = (Done (res 200 (JNote n)), db') /\
    In n (notes (data db')) /\
    (forall T, Some 1234000 = Some T -> Note.updated_at n = T) /\
    (Some 1234000 = None -> Note.updated_at n = 3000000) /\
    (forall b, recorded_until b db_fine_trashed -> b < 3000000 ->
               (Note.updated_at n = 3000000 <-> Some 1234000 = None)).
Proof.
  apply (restore_keeps_original_updated_at db_fine_trashed 1 fine_trashed
           3000000).
  - change db_fine_trashed
      with (run [mkEvent 1 1234567 no_fault (PostNotes "A" "B");
                 mkEvent 1 2000000 no_fault (DeleteNote 1)] empty_db).
    apply run_ok, db_ok_empty.
  - change db_fine_trashed
      with (run [mkEvent 1 1234567 no_fault (PostNotes "A" "B");
                 mkEvent 1 2000000 no_fault (DeleteNote 1)] empty_db).
    apply run_trashed_in_ms, trashed_in_ms_empty.
  - left; reflexivity.
  - reflexivity.
Defined.

(** X24: trashing an active note with [updated_at = T] produces a trashed
    note that names it, with [trashed_at] the time of the trash and
    [original_updated_at] equal to [T] cut to the millisecond: [T] itself
    when [T] is a whole number of milliseconds, less than a millisecond
    below [T] otherwise; and [trashed_at] is not before
    [original_updated_at] as long as the clock has not gone back since the
    last recorded timestamp. *)
Theorem trash_keeps_updated_at_to_the_millisecond :
  forall db uid n now,
    db_ok db ->
    In n (notes (data db)) ->
    Note.user_id n = uid ->
    exists t db',
      handle (trash_note no_fault uid (Note.id n) now) db
      = (Done (res 204 JNone), db') /\
      trashed_notes (data db') = trashed_notes (data db) ++ [t] /\
      Trashed.note_id t = Note.id n /\
      Trashed.original_updated_at t = Some (js_date (Note.updated_at n)) /\
      (js_date (Note.updated_at n) = Note.updated_at n ->
       Trashed.original_updated_at t = Some (Note.updated_at n)) /\
      Note.updated_at n - 1000 < js_date (Note.updated_at n)
                               <= Note.updated_at n /\
      Trashed.trashed_at t = now /\
      (forall b, recorded_until b db -> b <= now ->
                 js_date (Note.updated_at n) <= Trashed.trashed_at t).
Proof.
  intros db uid n now H Hn <-.
  pose proof (select_note_single db n H Hn) as S.
  rewrite (trash_served db _ _ now n [] H S).
  do 2 eexists; split; [reflexivity|]. cbn.
  do 3 (split; [reflexivity|]).
  split; [intros E; cbn; now rewrite E|].
  pose proof (js_date_le (Note.updated_at n)).
  pose proof (js_date_close (Note.updated_at n)).
  split; [lia|]. split; [reflexivity|].
  intros b [Hb _] Le. specialize (Hb n Hn). cbn. lia.
Qed.

Lemma trash_keeps_updated_at_to_the_millisecond_witness :
  exists t db',
    handle (trash_note no_fault 1 1 2000000) db_fine
    = (Done (res 204 JNone), db') /\
    trashed_notes (data db') = [] ++ [t] /\
    Trashed.note_id t = 1 /\
    Trashed.original_updated_at t = Some (js_date 1234567) /\
    (js_date 1234567 = 1234567 ->
     Trashed.original_updated_at t = Some 1234567) /\
    1234567 - 1000 < js_date 1234567 <= 1234567 /\
    Trashed.trashed_at t = 2000000 /\
    (forall b, recorded_until b db_fine -> b <= 2000000 ->
               js_date 1234567 <= Trashed.trashed_at t).
Proof.
  apply (trash_keeps_updated_at_to_the_millisecond db_fine 1 fine_note
           2000000).
  - change db_fine
      with (snd (serve (mkEvent 1 1234567 no_fault (PostNotes "A" "B"))
                       empty_db)).
    apply serve_ok, db_ok_empty.
  - left; reflexivity.
  - reflexivity.
Defined.

(** C4, as the code has it: the note of [db_fine] has
    [updated_at = 1234567]; trashed, it leaves a trashed row with
    [original_updated_at = 1234000], the value the driver's JS Date holds,
    not [updated_at]. *)
Theorem trash_loses_microseconds :
  handle (trash_note no_fault 1 1 2000000) db_fine
  = (Done (res 204 JNone), db_fine_trashed) /\
  In fine_note (notes (data db_fine)) /\
  Note.updated_at fine_note = 1234567 /\
  trashed_notes (data db_fine_trashed) = [fine_trashed] /\
  Trashed.original_updated_at fine_trashed = Some 1234000 /\
  Trashed.original_updated_at fine_trashed
  <> Some (Note.updated_at fine_note).
Proof.
  repeat split; try discriminate. now left.
Qed.

(** ** Ownership *)

Lemma trash_refuses db uid i now :
  filter (note_is i uid) (notes (data db)) = [] ->
  refuses (fun f => trash_note f uid i now) db not_found_note.
Proof.
  intros S. split.
  - exec_unfold; exec_simpl. rewrite S; exec_simpl. now rewrite db_eta.
  - intros f. exec_unfold; exec_simpl.
    destruct (f 0%nat); exec_simpl; [refused|].
    destruct (f 1%nat); exec_simpl; [refused|].
    rewrite S; exec_simpl. refused.
Qed.

Lemma restore_refuses db uid k now :
  filter (trashed_is k uid) (trashed_notes (data db)) = [] ->
  refuses (fun f => restore_note f uid k now) db not_found_trashed.
Proof.
  intros S. split.
  - exec_unfold; exec_simpl. rewrite S; exec_simpl. now rewrite db_eta.
  - intros f. exec_unfold; exec_simpl.
    destruct (f 0%nat); exec_simpl; [refused|].
    destruct (f 1%nat); exec_simpl; [refused|].
    rewrite S; exec_simpl. refused.
Qed.

Lemma erase_refuses db uid k :
  filter (trashed_is k uid) (trashed_notes (data db)) = [] ->
  refuses (fun f => erase_trashed_note f uid k) db not_found_trashed.
Proof.
  intros S. split.
  - exec_unfold; exec_simpl. rewrite S, (filter_negb_none _ _ S); exec_simpl.
    now rewrite same_db.
  - intros f. exec_unfold; exec_simpl.
    destruct (f 0%nat); exec_simpl; [refused|].
    rewrite S, (filter_negb_none _ _ S); exec_simpl. rewrite same_db. refused.
Qed.

Lemma update_refuses db uid i title content now :
  filter (note_is i uid) (notes (data db)) = [] ->
  (fst (validationResult title content) = [] ->
   handle (update_note no_fault uid i title content now) db
   = (Done not_found_note, db)) /\
  forall f, exists r,
    handle (update_note f uid i title content now) db = (Done r, db) /\
    refusal r.
Proof.
  intros S. split.
  - intros [Lt Lc]%validation_passes. unfold update_note.
    rewrite validationResult_eq, Lt, Lc; cbn [app].
    exec_unfold; exec_simpl. rewrite S, (map_if_none _ _ _ S); exec_simpl.
    now rewrite same_db.
  - intros f. unfold update_note. rewrite validationResult_eq.
    destruct (Validator.isLength 1 title), (Validator.isLength 1 content);
      cbn [app]; try refused.
    exec_unfold; exec_simpl.
    destruct (f 0%nat); exec_simpl; [refused|].
    rewrite S, (map_if_none _ _ _ S); exec_simpl. rewrite same_db. refused.
Qed.

Lemma select_note_missing db i uid :
  ~ In i (map Note.id (notes (data db))) ->
  filter (note_is i uid) (notes (data db)) = [].
Proof.
  intros H. apply all_filter_nil. intros m Hm. unfold note_is.
  destruct (Note.id m =? i) eqn:E; [|reflexivity].
  apply Z.eqb_eq in E. exfalso; apply H. rewrite <- E. now apply in_map.
Qed.

Lemma select_trashed_missing db k uid :
  ~ In k (map Trashed.id (trashed_notes (data db))) ->
  filter (trashed_is k uid) (trashed_notes (data db)) = [].
Proof.
  intros H. apply all_filter_nil. intros m Hm. unfold trashed_is.
  destruct (Trashed.id m =? k) eqn:E; [|reflexivity].
  apply Z.eqb_eq in E. exfalso; apply H. rewrite <- E. now apply in_map.
Qed.

(** C5: for distinct users [a] and [b], a trash or update call by [b] on a
    note of [a], and a restore or erase call by [b] on a trashed note of
    [a], never succeeds, carries no row in its answer and leaves the
    database as it is; when no query fails (and, for update, the body is
    valid) the answer is the 404 that the same call gets for an id that
    does not exist. *)
Theorem ownership_isolation :
  forall db a b now,
    db_ok db -> a <> b ->
    (forall n, In n (notes (data db)) -> Note.user_id n = a ->
       refuses (fun f => trash_note f b (Note.id n) now) db not_found_note /\
       forall title content,
         (fst (validationResult title content) = [] ->
          handle (update_note no_fault b (Note.id n) title content now) db
          = (Done not_found_note, db)) /\
         (forall f, exists r,
            handle (update_note f b (Note.id n) title content now) db
            = (Done r, db) /\ refusal r)) /\
    (forall t, In t (trashed_notes (data db)) -> Trashed.user_id t = a ->
       refuses (fun f => restore_note f b (Trashed.id t) now) db
               not_found_trashed /\
       refuses (fun f => erase_trashed_note f b (Trashed.id t)) db
               not_found_trashed) /\
    (forall i, ~ In i (map Note.id (notes (data db))) ->
       refuses (fun f => trash_note f b i now) db not_found_note /\
       forall title content,
         fst (validationResult title content) = [] ->
         handle (update_note no_fault b i title content now) db
         = (Done not_found_note, db)) /\
    (forall k, ~ In k (map Trashed.id (trashed_notes (data db))) ->
       refuses (fun f => restore_note f b k now) db not_found_trashed /\
       refuses (fun f => erase_trashed_note f b k) db not_found_trashed).
Proof.
  intros db a b now H Hab. repeat apply conj.
  - intros n Hn Hu.
    assert (S : filter (note_is (Note.id n) b) (notes (data db)) = [])
      by (apply select_note_foreign; auto; lia).
    split; [now apply trash_refuses|].
    intros title content. now apply update_refuses.
  - intros t Ht Hu.
    assert (S : filter (trashed_is (Trashed.id t) b)
                       (trashed_notes (data db)) = [])
      by (apply select_trashed_foreign; auto; lia).
    split; [now apply restore_refuses|now apply erase_refuses].
  - intros i Hi. pose proof (select_note_missing db i b Hi) as S.
    split; [now apply trash_refuses|].
    intros title content. now apply update_refuses.
  - intros k Hk. pose proof (select_trashed_missing db k b Hk) as S.
    split; [now apply restore_refuses|now apply erase_refuses].
Qed.

Lemma ownership_isolation_witness :
  refuses (fun f => trash_note f 2 2 30) db_mixed not_found_note /\
  refuses (fun f => restore_note f 2 1 30) db_mixed not_found_trashed /\
  refuses (fun f => erase_trashed_note f 2 1) db_mixed not_found_trashed.
Proof.
  destruct (ownership_isolation db_mixed 1 2 30 db_ok_mixed) as (A & B & _).
  - discriminate.
  - split.
    + apply (A other_note); [left; reflexivity|reflexivity].
    + apply (B sample_trashed); [left; reflexivity|reflexivity].
Defined.

(** ** One row per note *)

Lemma mem_In (x : Z) (l : list Z) : mem x l = true <-> In x l.
Proof.
  unfold mem. rewrite existsb_exists. split.
  - intros (y & Hy & E%Z.eqb_eq). now subst.
  - intros H. exists x. split; [assumption|apply Z.eqb_refl].
Qed.

Lemma mem_not_In (x : Z) (l : list Z) : mem x l = false <-> ~ In x l.
Proof.
  rewrite <- mem_In. destruct (mem x l); intuition congruence.
Qed.

Lemma located_represented u d w :
  db_ok d -> located u d w -> represented u d w.
Proof.
  intros H [_ L]. unfold represented.
  destruct (place w) as [i|k|].
  - destruct L as ((n & Hn & <- & Hu) & Hi & Un & Ut). split.
    + exists n. split; [|auto].
      rewrite <- (filter_key_single Note.id _ n (notes_unique _ H) Hn).
      apply filter_ext_in. intros m Hm. unfold stands_in_notes.
      destruct (Note.id m =? Note.id n) eqn:E.
      * apply Z.eqb_eq in E. rewrite E. now apply mem_In.
      * apply mem_not_In. intros K. apply Z.eqb_neq in E. auto.
    + apply all_filter_nil. intros t Ht. unfold stands_in_trash.
      destruct (Ut t Ht) as [A B].
      apply mem_not_In in A, B. now rewrite A, B.
  - destruct L as ((t & Ht & <- & Hu) & Hk & Ut & Un). split.
    + exists t. split; [|auto].
      rewrite <- (filter_key_single Trashed.id _ t (trashed_unique _ H) Ht).
      apply filter_ext_in. intros x Hx. unfold stands_in_trash.
      destruct (Trashed.id x =? Trashed.id t) eqn:E.
      * apply Z.eqb_eq in E. rewrite E.
        apply mem_In in Hk. now rewrite Hk.
      * apply Z.eqb_neq in E. apply orb_false_iff.
        split; apply mem_not_In; intros K; apply E, Ut; auto.
    + apply all_filter_nil. intros m Hm. apply mem_not_In. auto.
  - destruct L as [Un Ut]. split.
    + apply all_filter_nil. intros m Hm. apply mem_not_In. auto.
    + apply all_filter_nil. intros t Ht. unfold stands_in_trash.
      destruct (Ut t Ht) as [A B].
      apply mem_not_In in A, B. now rewrite A, B.
Qed.

Lemma follow_idle e db r w :
  status r = 400 \/ status r = 404 \/ status r = 500 \/
  status r = 200 /\ (req e = GetNotes \/ req e = GetTrashedNotes) ->
  follow e db (Done r) w = w.
Proof.
  intros H. unfold follow.
  destruct H as [Hs|[Hs|[Hs|[Hs [Hq|Hq]]]]]; try rewrite Hq;
    destruct (place w); try reflexivity; destruct (req e); try reflexivity;
    destruct (body r); try reflexivity;
    rewrite Hs; cbn; now rewrite andb_false_r.
Qed.

Lemma ids_issued_later d d' w :
  notes_id_seq d <= notes_id_seq d' ->
  trashed_notes_id_seq d <= trashed_notes_id_seq d' ->
  ids_issued d w -> ids_issued d' w.
Proof.
  intros Hn Ht [A B]. split; intros x Hx;
    [specialize (A x Hx)|specialize (B x Hx)]; lia.
Qed.

(** A request that moves none of the note's rows. *)
Lemma located_elsewhere u d d' w :
  located u d w ->
  notes_id_seq d <= notes_id_seq d' ->
  trashed_notes_id_seq d <= trashed_notes_id_seq d' ->
  (forall m, In m (notes (data d')) ->
     (exists m0, In m0 (notes (data d)) /\ Note.id m0 = Note.id m) \/
     ~ In (Note.id m) (note_ids w)) ->
  (forall t, In t (trashed_notes (data d')) ->
     In t (trashed_notes (data d)) \/
     (~ In (Trashed.id t) (trashed_ids w) /\
      ~ In (Trashed.note_id t) (note_ids w))) ->
  (forall i, place w = Active i ->
     forall n, In n (notes (data d)) -> Note.id n = i ->
     exists n', In n' (notes (data d')) /\ Note.id n' = i /\
                Note.user_id n' = Note.user_id n) ->
  (forall k, place w = InTrash k ->
     forall t, In t (trashed_notes (data d)) -> Trashed.id t = k ->
     In t (trashed_notes (data d'))) ->
  located u d' w.
Proof.
  intros [I L] Sn St Kn Kt An At. split; [eapply ids_issued_later; eauto|].
  destruct (place w) as [i|k|] eqn:P.
  - destruct L as ((n & Hn & Hi & Hu) & Hin & Un & Ut).
    destruct (An i eq_refl n Hn Hi) as (n' & Hn' & Hi' & Hu').
    split; [exists n'; repeat split; auto; congruence|].
    split; [assumption|]. split.
    + intros m Hm Hid.
      destruct (Kn m Hm) as [(m0 & Hm0 & E)|K]; [|contradiction].
      rewrite <- E in *. auto.
    + intros t Ht. destruct (Kt t Ht) as [K|K]; auto.
  - destruct L as ((t & Ht & Hk & Hu) & Hin & Ut & Un).
    split; [exists t; repeat split; eauto|].
    split; [assumption|]. split.
    + intros x Hx Hid. destruct (Kt x Hx) as [K|[K1 K2]]; [auto|tauto].
    + intros m Hm.
      destruct (Kn m Hm) as [(m0 & Hm0 & E)|K]; [|assumption].
      rewrite <- E. auto.
  - destruct L as [Un Ut]. split.
    + intros m Hm.
      destruct (Kn m Hm) as [(m0 & Hm0 & E)|K]; [|assumption].
      rewrite <- E. auto.
    + intros t Ht. destruct (Kt t Ht) as [K|K]; auto.
Qed.

(** The active ids of the note are not the ids of other active notes. *)
Lemma located_other_note u d w m :
  located u d w -> In m (notes (data d)) ->
  (forall i, place w = Active i -> Note.id m <> i) ->
  ~ In (Note.id m) (note_ids w).
Proof.
  intros [_ L] Hm Ne. destruct (place w) as [i|k|].
  - destruct L as (_ & _ & Un & _). intros K. now apply (Ne i eq_refl), Un.
  - destruct L as (_ & _ & _ & Un). auto.
  - destruct L as [Un _]. auto.
Qed.

Lemma located_other_trashed u d w t :
  located u d w -> In t (trashed_notes (data d)) ->
  (forall k, place w = InTrash k -> Trashed.id t <> k) ->
  ~ In (Trashed.id t) (trashed_ids w) /\
  ~ In (Trashed.note_id t) (note_ids w).
Proof.
  intros [_ L] Ht Ne. destruct (place w) as [i|k|].
  - destruct L as (_ & _ & _ & Ut). auto.
  - destruct L as (_ & _ & Ut & _).
    split; intros K; apply (Ne k eq_refl), Ut; auto.
  - destruct L as [_ Ut]. auto.
Qed.

Lemma follow_located u e db r db' w :
  db_ok db -> located u db w -> transition e db r db' ->
  located u db' (follow e db (Done r) w).
Proof.
  intros H L T. pose proof H as [nb nu tb tu ob ou og].
  pose proof L as [[BN BT] L'].
  destruct T as [Hd Hn Ht Hs | title content n0 Hq _ -> -> ->
                | j title content n0 rest Hq _ S -> ->
                | j n0 rest Hq S -> -> | j t0 rest Hq S -> ->
                | j t0 rest Hq S -> ->].
  - (* nothing changes *)
    rewrite (follow_idle _ _ _ _ Hs).
    apply (located_elsewhere u db); auto; rewrite Hd; eauto.
  - (* a note is created *)
    replace (follow _ _ _ w) with w
      by (unfold follow; rewrite Hq; now destruct (place w)).
    apply (located_elsewhere u db); cbn; auto; try lia.
    + intros m [Hm|[<-|[]]]%in_app_or; eauto.
      right. cbn. intros K. specialize (BN _ K). lia.
    + intros i _ n Hn' Hi. exists n. repeat split; auto.
      apply in_or_app; auto.
  - (* a note is updated *)
    replace (follow _ _ _ w) with w
      by (unfold follow; rewrite Hq; now destruct (place w)).
    apply (located_elsewhere u db); cbn; auto; try lia.
    + intros m (m0 & Hm0 & Ei & _)%in_update. eauto.
    + intros i _ n Hn' Hi.
      eexists; split; [apply in_map; exact Hn'|].
      destruct (note_is j (userId e) n); cbn; auto.
  - (* a note is trashed *)
    destruct (select_note_alone _ _ _ _ _ H S) as (_ & Hn0 & Hj & Hv).
    unfold follow; rewrite Hq.
    destruct (place w) as [i|k|] eqn:P;
      cbn [status body]; rewrite ?Z.eqb_refl, ?andb_true_r.
    + destruct (i =? j) eqn:E; [apply Z.eqb_eq in E|apply Z.eqb_neq in E].
      * (* the followed note itself *)
        destruct L' as ((n & Hn & Hi & Hu) & Hin & Un & Ut).
        assert (n0 = n)
          by (apply (NoDup_map_same Note.id _ n0 n nu); auto; lia).
        subst n0. split; [split; cbn|cbn].
        -- intros x Hx. specialize (BN x Hx). lia.
        -- intros x [<-|Hx]; [lia|]. specialize (BT x Hx). lia.
        -- split.
           { eexists; split; [apply in_or_app; right; left; reflexivity|].
             cbn; auto. }
           split; [now left|]. split.
           { intros x [Hx|[<-|[]]]%in_app_or; [|reflexivity].
             destruct (Ut x Hx) as [A B].
             intros [[K|K]|K]; [specialize (tb x Hx); lia|tauto|tauto]. }
           intros m [Hm Hx]%filter_In Hid.
           assert (m = n)
             by (apply (NoDup_map_same Note.id _ m n nu); auto;
                 rewrite (Un m Hm Hid); lia).
           subst m. unfold note_is in Hx.
           rewrite Hj, Hv, !Z.eqb_refl in Hx. discriminate.
      * (* another note of the table *)
        cbn [andb].
        apply (located_elsewhere u db); cbn; auto; try lia.
        -- intros m [Hm _]%filter_In. eauto.
        -- intros x [Hx|[<-|[]]]%in_app_or; auto. right. cbn. split.
           ++ intros K. specialize (BT _ K). lia.
           ++ apply (located_other_note u db w n0 L Hn0).
              intros i' P'. rewrite P in P'. inversion P'; lia.
        -- intros i' P' n Hn Hi. rewrite P in P'; inversion P'; subst i'.
           exists n. repeat split; auto. apply filter_In; split; auto.
           unfold note_is. replace (Note.id n =? j) with false; auto.
           symmetry; apply Z.eqb_neq; lia.
        -- intros k P'. rewrite P in P'; discriminate.
    + cbn.
      apply (located_elsewhere u db); cbn; auto; try lia.
      * intros m [Hm _]%filter_In. eauto.
      * intros x [Hx|[<-|[]]]%in_app_or; auto. right. cbn. split.
        -- intros K. specialize (BT _ K). lia.
        -- apply (located_other_note u db w n0 L Hn0).
           intros i' P'. rewrite P in P'. discriminate.
      * intros i' P'. rewrite P in P'; discriminate.
      * intros k' P' t Ht' Hk. apply in_or_app; auto.
    + cbn.
      apply (located_elsewhere u db); cbn; auto; try lia.
      * intros m [Hm _]%filter_In. eauto.
      * intros x [Hx|[<-|[]]]%in_app_or; auto. right. cbn. split.
        -- intros K. specialize (BT _ K). lia.
        -- apply (located_other_note u db w n0 L Hn0).
           intros i' P'. rewrite P in P'. discriminate.
      * intros i' P'. rewrite P in P'; discriminate.
      * intros k' P'. rewrite P in P'; discriminate.
  - (* a trashed note is restored *)
    destruct (select_trashed_alone _ _ _ _ _ H S) as (_ & Ht0 & Hj & Hv).
    unfold follow; rewrite Hq.
    destruct (place w) as [i|k|] eqn:P;
      cbn [status body]; rewrite ?Z.eqb_refl, ?andb_true_r.
    + cbn.
      apply (located_elsewhere u db); cbn; auto; try lia.
      * intros m [Hm|[<-|[]]]%in_app_or; eauto.
        right. cbn. intros K. specialize (BN _ K). lia.
      * intros x [Hx _]%filter_In. auto.
      * intros i' P' n Hn Hi. exists n. repeat split; auto.
        apply in_or_app; auto.
      * intros k' P'. rewrite P in P'; discriminate.
    + destruct (k =? j) eqn:E; [apply Z.eqb_eq in E|apply Z.eqb_neq in E].
      * (* the followed note itself *)
        destruct L' as ((t & Ht & Hk & Hu) & Hin & Ut & Un).
        assert (t0 = t)
          by (apply (NoDup_map_same Trashed.id _ t0 t tu); auto; lia).
        subst t0. split; [split; cbn|cbn].
        -- intros x [<-|Hx]; [lia|]. specialize (BN x Hx). lia.
        -- intros x Hx. specialize (BT x Hx). lia.
        -- split.
           { eexists; split; [apply in_or_app; right; left; reflexivity|].
             cbn; auto. }
           split; [now left|]. split.
           { intros m [Hm|[<-|[]]]%in_app_or; [|reflexivity].
             intros [K|K]; [specialize (nb m Hm); lia|].
             now apply Un in K. }
           intros x [Hx Hn]%filter_In.
           assert (Ne : Trashed.id x <> k).
           { intros K.
             assert (x = t)
               by (apply (NoDup_map_same Trashed.id _ x t tu); auto; lia).
             subst x. unfold trashed_is in Hn.
             rewrite Hj, Hv, !Z.eqb_refl in Hn. discriminate. }
           split.
           ++ intros K. apply Ne, Ut; auto.
           ++ intros [K|K]; [specialize (ob x Hx); lia|].
              apply Ne, Ut; auto.
      * (* another trashed note *)
        cbn [andb].
        apply (located_elsewhere u db); cbn; auto; try lia.
        -- intros m [Hm|[<-|[]]]%in_app_or; eauto.
           right. cbn. intros K. specialize (BN _ K). lia.
        -- intros x [Hx _]%filter_In. auto.
        -- intros i' P'. rewrite P in P'; discriminate.
        -- intros k' P' t Ht Hk. rewrite P in P'; inversion P'; subst k'.
           apply filter_In; split; auto.
           unfold trashed_is. replace (Trashed.id t =? j) with false; auto.
           symmetry; apply Z.eqb_neq; lia.
    + cbn.
      apply (located_elsewhere u db); cbn; auto; try lia.
      * intros m [Hm|[<-|[]]]%in_app_or; eauto.
        right. cbn. intros K. specialize (BN _ K). lia.
      * intros x [Hx _]%filter_In. auto.
      * intros i' P'. rewrite P in P'; discriminate.
      * intros k' P'. rewrite P in P'; discriminate.
  - (* a trashed note is erased *)
    destruct (select_trashed_alone _ _ _ _ _ H S) as (_ & Ht0 & Hj & Hv).
    unfold follow; rewrite Hq.
    destruct (place w) as [i|k|] eqn:P;
      cbn [status body]; rewrite ?Z.eqb_refl, ?andb_true_r.
    + cbn.
      apply (located_elsewhere u db); cbn; auto; try lia.
      * eauto.
      * intros x [Hx _]%filter_In. auto.
      * eauto.
      * intros k' P'. rewrite P in P'; discriminate.
    + destruct (k =? j) eqn:E; [apply Z.eqb_eq in E|apply Z.eqb_neq in E].
      * destruct L' as ((t & Ht & Hk & Hu) & Hin & Ut & Un).
        split; [split; cbn; auto|cbn].
        split; [assumption|].
        intros x [Hx Hn]%filter_In.
        assert (Ne : Trashed.id x <> k).
        { intros K.
          assert (x = t0)
            by (apply (NoDup_map_same Trashed.id _ x t0 tu); auto; lia).
          subst x. unfold trashed_is in Hn.
          rewrite Hj, Hv, !Z.eqb_refl in Hn. discriminate. }
        split; intros K; apply Ne, Ut; auto.
      * cbn [andb].
        apply (located_elsewhere u db); cbn; auto; try lia.
        -- eauto.
        -- intros x [Hx _]%filter_In. auto.
        -- intros i' P'. rewrite P in P'; discriminate.
        -- intros k' P' t Ht Hk. rewrite P in P'; inversion P'; subst k'.
           apply filter_In; split; auto.
           unfold trashed_is. replace (Trashed.id t =? j) with false; auto.
           symmetry; apply Z.eqb_neq; lia.
    + cbn.
      apply (located_elsewhere u db); cbn; auto; try lia.
      * eauto.
      * intros x [Hx _]%filter_In. auto.
      * intros i' P'. rewrite P in P'; discriminate.
      * intros k' P'. rewrite P in P'; discriminate.
Qed.

Lemma track_located u evs :
  forall db w, db_ok db -> located u db w ->
               located u (run evs db) (track evs db w).
Proof.
  induction evs as [|e evs IH]; cbn; intros db w H L; [assumption|].
  destruct (serve_transition e db) as (r & db' & E & T). rewrite E; cbn.
  apply IH.
  - eapply transition_ok; eauto.
  - eapply follow_located; eauto.
Qed.

(** C6: once a note has been created, after any sequence of requests it is
    exactly one active row or exactly one trashed row, never both and never
    neither, until it is erased for good: of all the rows that ever stood
    for it (under any id it has had in either table, or naming such an id
    as their [note_id]) exactly one is left, in the table where the note
    is, and none once it is erased. *)
Theorem one_row_per_note :
  forall db e n db1 evs,
    db_ok db ->
    serve e db = (Done (res 201 (JNote n)), db1) ->
    represented (userId e) (run evs db1)
                (track evs db1
                   (mkTracked (Active (Note.id n)) [Note.id n] [])).
Proof.
  intros db e n db1 evs H E.
  destruct (serve_transition_of _ _ _ _ E) as (r & R & T).
  inversion R; subst r; clear R.
  assert (H1 : db_ok db1) by (eapply transition_ok; eauto).
  apply located_represented; [now apply run_ok|].
  apply track_located; [assumption|].
  destruct T as [Hd Hn Ht Hs | title content n0 Hq _ -> R ->
                | j title content n0 rest Hq _ S R ->
                | j n0 rest Hq S R -> | j t0 rest Hq S R ->
                | j t0 rest Hq S R ->]; try discriminate.
  - cbn in Hs. lia.
  - inversion R; subst n. split; [split; cbn|cbn].
    + intros x [<-|[]]. lia.
    + intros x [].
    + split.
      { eexists; split; [apply in_or_app; right; left; reflexivity|auto]. }
      split; [now left|]. split.
      * intros m _ [K|[]]. now rewrite K.
      * intros t Ht. split; [intros []|].
        intros [K|[]]. pose proof (origin_below _ H t Ht). lia.
Qed.

Lemma one_row_per_note_witness :
  represented 1 (run [trash_1; restore_1; mkEvent 1 40 no_fault (DeleteNote 2)]
                     db_active)
              (mkTracked (InTrash 2) [2; 1] [2; 1]).
Proof.
  apply (one_row_per_note empty_db create_AB sample_note db_active
           [trash_1; restore_1; mkEvent 1 40 no_fault (DeleteNote 2)]).
  - exact db_ok_empty.
  - reflexivity.
Defined.

(** ** Validation of title and content *)

(** X21: an empty title or content is refused with 400 by both routes,
    before any query whatever the faults, and nothing is stored. *)
Lemma empty_field_rejected f uid i title content now db :
  title = EmptyString \/ content = EmptyString ->
  (exists errors,
     handle (create_note f uid title content now) db
     = (Done (res 400 (JErrors errors)), db)) /\
  (exists errors,
     handle (update_note f uid i title content now) db
     = (Done (res 400 (JErrors errors)), db)).
Proof.
  intros H. unfold create_note, update_note. rewrite validationResult_eq.
  destruct (Validator.isLength 1 title) eqn:Lt,
           (Validator.isLength 1 content) eqn:Lc;
    cbn [app]; try (split; eexists; reflexivity).
  apply isLength_1 in Lt, Lc. tauto.
Qed.

(** What either route stores went through [trim], and came from a title and
    a content that were not empty. *)
Lemma accepted_fields_nonempty e db s n db' title content :
  req e = PostNotes title content \/
  (exists i, req e = PutNote i title content) ->
  s = 200 \/ s = 201 ->
  serve e db = (Done (res s (JNote n)), db') ->
  title <> EmptyString /\ content <> EmptyString /\
  Note.title n = Validator.trim title /\
  Note.content n = Validator.trim content.
Proof.
  intros Hq Hs E.
  destruct (serve_transition_of _ _ _ _ E) as (r & R & T).
  inversion R; subst r; clear R.
  destruct T as [Hd Hn Ht Hs' | title' content' n0 Hq' V -> R ->
                | j title' content' n0 rest Hq' V S R ->
                | j n0 rest Hq' S R -> | j t0 rest Hq' S R ->
                | j t0 rest Hq' S R ->].
  - cbn in Hs'. destruct Hq as [Hq|(i & Hq)]; rewrite Hq in Hs';
      destruct Hs' as [|[|[|[_ [|]]]]]; try discriminate; lia.
  - apply validation_passes in V as [Lt%isLength_1 Lc%isLength_1].
    inversion R; subst.
    destruct Hq as [Hq|(i & Hq)]; rewrite Hq in Hq'; inversion Hq'; subst.
    cbn; auto.
  - apply validation_passes in V as [Lt%isLength_1 Lc%isLength_1].
    inversion R; subst.
    destruct Hq as [Hq|(i & Hq)]; rewrite Hq in Hq'; inversion Hq'; subst.
    cbn; auto.
  - destruct Hq as [Hq|(i & Hq)]; rewrite Hq in Hq'; discriminate.
  - destruct Hq as [Hq|(i & Hq)]; rewrite Hq in Hq'; discriminate.
  - destruct Hq as [Hq|(i & Hq)]; rewrite Hq in Hq'; discriminate.
Qed.

(** C7, as the code has it: a title of white space only passes
    [isLength({ min: 1 })], which runs before [trim()], and the note is
    stored with an empty title, by POST /notes and by PUT /notes/:id
    alike. *)
Theorem blank_title_is_stored :
  serve (mkEvent 1 10 no_fault (PostNotes " " "B")) empty_db
  = (Done (res 201 (JNote (Note.mk 1 1 "" "B" 10 10))),
     mkDatabase (mkTables [Note.mk 1 1 "" "B" 10 10] []) 2 1) /\
  serve (mkEvent 1 20 no_fault (PutNote 1 " " "  ")) db_active
  = (Done (res 200 (JNote (Note.mk 1 1 "" "" 10 20))),
     mkDatabase (mkTables [Note.mk 1 1 "" "" 10 20] []) 2 1).
Proof. split; reflexivity. Qed.

(** ** Erased for good *)

Lemma transition_gone k e db r db' :
  gone k db -> transition e db r db' -> gone k db'.
Proof.
  intros [Hk Hg] T.
  destruct T as [Hd Hn Ht _ | title content n _ _ -> _ ->
                | i title content n rest _ _ S _ ->
                | i n rest _ S _ -> | i t rest _ S _ -> | i t rest _ S _ ->];
    split; cbn; rewrite ?Hd; auto; try lia.
  - intros x [Hx|[<-|[]]]%in_app_or; auto. cbn; lia.
  - intros x [Hx _]%filter_In; auto.
  - intros x [Hx _]%filter_In; auto.
Qed.

Lemma run_gone k evs : forall db, gone k db -> gone k (run evs db).
Proof.
  induction evs as [|e evs IH]; cbn; intros db G; [assumption|].
  destruct (serve_transition e db) as (r & db' & E & T). rewrite E; cbn.
  eauto using transition_gone.
Qed.

(** C8: once the erase route has answered 204 for a trashed id, then after
    any further requests a restore and an erase of that id, by anyone,
    are refused: 404 when no query fails, and never a success. *)
Theorem erased_is_terminal :
  forall db e k db1 evs uid now,
    db_ok db ->
    req e = DeleteTrashedNote k ->
    serve e db = (Done (res 204 JNone), db1) ->
    refuses (fun f => restore_note f uid k now) (run evs db1)
            not_found_trashed /\
    refuses (fun f => erase_trashed_note f uid k) (run evs db1)
            not_found_trashed.
Proof.
  intros db e k db1 evs uid now H Hq E.
  destruct (serve_transition_of _ _ _ _ E) as (r & R & T).
  inversion R; subst r; clear R.
  assert (G : gone k db1).
  { destruct T as [Hd Hn Ht Hs | title content n0 Hq' _ -> R ->
                  | j title content n0 rest Hq' _ S R ->
                  | j n0 rest Hq' S R -> | j t0 rest Hq' S R ->
                  | j t0 rest Hq' S R ->]; try congruence.
    - cbn in Hs. lia.
    - rewrite Hq in Hq'; inversion Hq'; subst j; clear Hq'.
      apply filter_head_in in S as [Ht0 Hp].
      unfold trashed_is in Hp.
      apply andb_true_iff in Hp as [Hj%Z.eqb_eq Hv].
      split; cbn.
      + pose proof (trashed_below _ H t0 Ht0); lia.
      + intros x [Hx Hn]%filter_In Ex.
        assert (x = t0)
          by (apply (NoDup_map_same Trashed.id _ x t0 (trashed_unique _ H));
              auto; lia).
        subst x. unfold trashed_is in Hn.
        rewrite Hj, Z.eqb_refl, Hv in Hn. discriminate. }
  apply (run_gone k evs) in G. destruct G as [_ G].
  assert (S : filter (trashed_is k uid)
                     (trashed_notes (data (run evs db1))) = []).
  { apply all_filter_nil. intros x Hx. unfold trashed_is.
    replace (Trashed.id x =? k) with false; [reflexivity|].
    symmetry; apply Z.eqb_neq; auto. }
  split; [now apply restore_refuses|now apply erase_refuses].
Qed.

Lemma erased_is_terminal_witness :
  refuses (fun f => restore_note f 1 1 50)
          (run [create_CD; mkEvent 1 45 no_fault (DeleteNote 2)]
               (mkDatabase (mkTables [] []) 2 2))
          not_found_trashed /\
  refuses (fun f => erase_trashed_note f 1 1)
          (run [create_CD; mkEvent 1 45 no_fault (DeleteNote 2)]
               (mkDatabase (mkTables [] []) 2 2))
          not_found_trashed.
Proof.
  apply (erased_is_terminal db_trashed erase_1 1
           (mkDatabase (mkTables [] []) 2 2)
           [create_CD; mkEvent 1 45 no_fault (DeleteNote 2)] 1 50).
  - exact db_ok_trashed.
  - reflexivity.
  - reflexivity.
Defined.

(** ** Note ids *)

Lemma transition_assigns e db r db' :
  transition e db r db' ->
  (assigned_by e (Done r) = [] /\ notes_id_seq db <= notes_id_seq db') \/
  (assigned_by e (Done r) = [notes_id_seq db] /\
   notes_id_seq db' = notes_id_seq db + 1).
Proof.
  intros T. unfold assigned_by.
  destruct T as [Hd Hn Ht Hs | title content n Hq _ -> -> ->
                | i title content n rest Hq _ S -> ->
                | i n rest Hq S -> -> | i t rest Hq S -> ->
                | i t rest Hq S -> ->]; try rewrite Hq; cbn.
  1: { left; split; [|assumption].
       destruct Hs as [Hs|[Hs|[Hs|[Hs [Hq|Hq]]]]]; try rewrite Hq; auto;
         destruct (req e); auto; destruct (body r); auto; rewrite Hs; auto. }
  all: try (left; split; [reflexivity|lia]); right; split; reflexivity.
Qed.

Lemma assigned_bounds evs :
  forall db,
    notes_id_seq db <= notes_id_seq (run evs db) /\
    (forall x, In x (assigned evs db) ->
               notes_id_seq db <= x < notes_id_seq (run evs db)) /\
    NoDup (assigned evs db).
Proof.
  induction evs as [|e evs IH]; cbn; intros db.
  - split; [lia|]. split; [intros x []|constructor].
  - destruct (serve_transition e db) as (r & db' & E & T).
    rewrite E; cbn [fst snd].
    destruct (IH db') as (M & B & D).
    destruct (transition_assigns _ _ _ _ T) as [[-> Hs]|[-> Hs]]; cbn.
    + split; [lia|]. split; [|assumption].
      intros x Hx. specialize (B x Hx). lia.
    + split; [lia|]. split.
      * intros x [<-|Hx]; [lia|]. specialize (B x Hx); lia.
      * constructor; auto. intros Hx. specialize (B _ Hx). lia.
Qed.

Lemma known_ids_below db x :
  db_ok db -> In x (known_ids db) -> x < notes_id_seq db.
Proof.
  intros H [(n & <- & Hn)%in_map_iff|(t & <- & Ht)%in_map_iff]%in_app_or.
  - now apply notes_below.
  - now apply origin_below.
Qed.

(** C9: the note a restore creates gets an id that is not the original
    note's id, is recorded nowhere in the database, neither now nor when the
    run of requests began, and was handed out by no earlier request; the ids
    handed out over a run, this restore included, are pairwise distinct. *)
Theorem restore_assigns_fresh_id :
  forall db evs e k n db' t,
    db_ok db ->
    req e = PostRestore k ->
    serve e (run evs db) = (Done (res 200 (JNote n)), db') ->
    In t (trashed_notes (data (run evs db))) ->
    Trashed.id t = k ->
    Note.id n <> Trashed.note_id t /\
    ~ In (Note.id n) (known_ids db) /\
    ~ In (Note.id n) (known_ids (run evs db)) /\
    ~ In (Note.id n) (assigned evs db) /\
    In (Note.id n) (assigned (evs ++ [e]) db) /\
    NoDup (assigned (evs ++ [e]) db).
Proof.
  intros db evs e k n db' t H Hq E Ht Hk.
  pose proof (run_ok evs db H) as H1.
  destruct (assigned_bounds evs db) as (M & B & D).
  destruct (serve_transition_of _ _ _ _ E) as (r & R & T).
  inversion R; subst r; clear R.
  assert (Hn : Note.id n = notes_id_seq (run evs db)).
  { destruct T as [Hd Hn Hs' Hs | title content n0 Hq' _ -> R ->
                  | j title content n0 rest Hq' _ S R ->
                  | j n0 rest Hq' S R -> | j t0 rest Hq' S R ->
                  | j t0 rest Hq' S R ->]; try congruence.
    - cbn in Hs. destruct Hs as [|[|[|[_ [|]]]]]; try lia; congruence.
    - inversion R; reflexivity. }
  repeat apply conj.
  - pose proof (origin_below _ H1 t Ht). lia.
  - intros Hx. apply known_ids_below in Hx; auto. lia.
  - intros Hx. apply known_ids_below in Hx; auto. lia.
  - intros Hx. specialize (B _ Hx). lia.
  - rewrite assigned_app. apply in_or_app; right. cbn.
    rewrite E, app_nil_r. unfold assigned_by; cbn. rewrite Hq. cbn. now left.
  - destruct (assigned_bounds (evs ++ [e]) db) as (_ & _ & D'). exact D'.
Qed.

Lemma restore_assigns_fresh_id_witness :
  3 <> 1 /\
  ~ In 3 (known_ids empty_db) /\
  ~ In 3 (known_ids (run [create_AB; create_CD; trash_1] empty_db)) /\
  ~ In 3 (assigned [create_AB; create_CD; trash_1] empty_db) /\
  In 3 (assigned ([create_AB; create_CD; trash_1] ++ [restore_1]) empty_db) /\
  NoDup (assigned ([create_AB; create_CD; trash_1] ++ [restore_1]) empty_db).
Proof.
  apply (restore_assigns_fresh_id empty_db [create_AB; create_CD; trash_1]
           restore_1 1 (Note.mk 3 1 "A" "B" 30 0)
           (mkDatabase
              (mkTables [other_note; Note.mk 3 1 "A" "B" 30 0] []) 4 2)
           sample_trashed).
  - exact db_ok_empty.
  - reflexivity.
  - reflexivity.
  - left; reflexivity.
  - reflexivity.
Defined.

(** ** Listings *)

Section OrderBy.

Context {A : Type} (key : A -> Z).

Lemma insert_desc_perm x l : Permutation (insert_desc key x l) (x :: l).
Proof.
  induction l as [|y l IH]; cbn; [reflexivity|].
  destruct (key y <? key x); [reflexivity|].
  rewrite IH. apply perm_swap.
Qed.

Lemma order_by_desc_perm l : Permutation (order_by_desc key l) l.
Proof.
  induction l as [|x l IH]; cbn; [reflexivity|].
  rewrite insert_desc_perm. now constructor.
Qed.

Lemma insert_desc_sorted x l :
  StronglySorted (desc key) l ->
  StronglySorted (desc key) (insert_desc key x l).
Proof.
  induction 1 as [|y l Hs IH Hy]; cbn.
  - repeat constructor.
  - destruct (key y <? key x) eqn:E.
    + apply Z.ltb_lt in E. constructor; [now constructor|].
      constructor; [unfold desc; lia|].
      eapply Forall_impl; [|exact Hy]. unfold desc; intros; lia.
    + apply Z.ltb_ge in E. constructor; [assumption|].
      eapply Permutation_Forall; [symmetry; apply insert_desc_perm|].
      constructor; [exact E|exact Hy].
Qed.

Lemma order_by_desc_sorted l : StronglySorted (desc key) (order_by_desc key l).
Proof.
  induction l as [|x l IH]; cbn; [constructor|now apply insert_desc_sorted].
Qed.

End OrderBy.

(** C10: GET /notes answers with the caller's active notes, all of them and
    no others, in descending order of [updated_at]; GET /trashed-notes with
    the caller's trashed notes in descending order of [trashed_at]; on every
    call, and leaving the database as it is. *)
Theorem listings_are_ordered :
  forall uid db,
    (exists rows,
        handle (get_notes no_fault uid) db
        = (Done (res 200 (JNotes rows)), db) /\
        Permutation rows
          (filter (fun n => Note.user_id n =? uid) (notes (data db))) /\
        StronglySorted (desc Note.updated_at) rows) /\
    (exists rows,
        handle (get_trashed_notes no_fault uid) db
        = (Done (res 200 (JTrashedNotes rows)), db) /\
        Permutation rows
          (filter (fun t => Trashed.user_id t =? uid)
                  (trashed_notes (data db))) /\
        StronglySorted (desc Trashed.trashed_at) rows).
Proof.
  intros uid db; split; eexists; (split; [reflexivity|]); split.
  - apply order_by_desc_perm.
  - apply order_by_desc_sorted.
  - apply order_by_desc_perm.
  - apply order_by_desc_sorted.
Qed.

(** * Beyond the claims *)

(** ** authMiddleware *)

(** X1: a request with no Authorization header, an empty one, or a token
    that does not verify is answered 401 on every route, before validation
    and before any query, and the database stays as it is. *)
Theorem unauthenticated_is_refused :
  forall verify h db,
    authorization h = None \/ authorization h = Some EmptyString \/
    (exists token, authorization h = Some token /\
                   verify (served_at h) token = None) ->
    exists message,
      handle (application verify h) db
      = (Done (res 401 (JError message)), db) /\
      (message = "No token provided"%string \/
       message = "Invalid token"%string).
Proof.
  intros verify h db H. unfold application, authMiddleware, handle, ret.
  destruct H as [->|[->|(token & -> & V)]].
  - eexists; split; [reflexivity|auto].
  - eexists; split; [reflexivity|auto].
  - destruct token; [eexists; split; [reflexivity|auto]|].
    rewrite V. eexists; split; [reflexivity|auto].
Qed.

Lemma unauthenticated_is_refused_witness :
  exists message,
    handle (application (fun _ _ => None)
              (mkHttp (Some "forged"%string) 40 no_fault
                      (PostNotes "" ""))) db_active
    = (Done (res 401 (JError message)), db_active) /\
    (message = "No token provided"%string \/
     message = "Invalid token"%string).
Proof.
  apply (unauthenticated_is_refused (fun _ _ => None)).
  right; right. exists "forged"%string. split; reflexivity.
Defined.

(** ** What an answer says about the tables *)

(** X2: whatever the route and the faults, an answer 400, 404 or 500 comes
    with tables that are as they were; nothing is ever half applied. *)
Theorem failure_changes_nothing :
  forall e db r db',
    serve e db = (Done r, db') ->
    status r = 400 \/ status r = 404 \/ status r = 500 ->
    data db' = data db.
Proof.
  intros e db r db' E Hs.
  destruct (serve_transition_of _ _ _ _ E) as (r0 & R & T).
  inversion R; subst r0; clear R.
  destruct T as [Hd _ _ _ | title content n0 Hq _ -> R ->
                | j title content n0 rest Hq _ S R ->
                | j n0 rest Hq S R -> | j t0 rest Hq S R ->
                | j t0 rest Hq S R ->]; [assumption|..];
    subst r; cbn in Hs; lia.
Qed.

Lemma failure_changes_nothing_witness :
  data (mkDatabase (mkTables [sample_note] []) 2 2) = data db_active.
Proof.
  apply (failure_changes_nothing
           (mkEvent 1 20 (fail_at 4) (DeleteNote 1)) db_active
           (res 500 (JError "Failed to move note to trash"))).
  - reflexivity.
  - right; right; reflexivity.
Defined.

(** ** Rows of other users *)

Lemma filter_owner_update a i u title content now l :
  u <> a ->
  filter (fun n => Note.user_id n =? a)
         (map (fun m => if note_is i u m
                        then update_row title content now m else m) l)
  = filter (fun n => Note.user_id n =? a) l.
Proof.
  intros Hu. induction l as [|m l IH]; cbn; [reflexivity|].
  rewrite IH. unfold note_is.
  destruct (Note.id m =? i); cbn; [|reflexivity].
  destruct (Note.user_id m =? u) eqn:E; cbn; [|reflexivity].
  apply Z.eqb_eq in E.
  replace (Note.user_id m =? a) with false; [reflexivity|].
  symmetry; apply Z.eqb_neq; lia.
Qed.

Lemma filter_owner_delete {A : Type} (owner key : A -> Z) a i u l :
  u <> a ->
  filter (fun x => owner x =? a)
         (filter (fun x => negb ((key x =? i) && (owner x =? u))) l)
  = filter (fun x => owner x =? a) l.
Proof.
  intros Hu. induction l as [|m l IH]; cbn; [reflexivity|].
  destruct (owner m =? a) eqn:Ea.
  - apply Z.eqb_eq in Ea.
    replace (owner m =? u) with false
      by (symmetry; apply Z.eqb_neq; lia).
    rewrite andb_false_r; cbn.
    replace (owner m =? a) with true by (symmetry; apply Z.eqb_eq; lia).
    now rewrite IH.
  - destruct (negb _); cbn; rewrite ?Ea; exact IH.
Qed.

(** X3: a request of user [userId e], whatever it is and whatever fails,
    leaves the active and the trashed notes of every other user exactly as
    they were. *)
Theorem others_rows_untouched :
  forall e db a,
    userId e <> a ->
    notes_of a (snd (serve e db)) = notes_of a db /\
    trashed_notes_of a (snd (serve e db)) = trashed_notes_of a db.
Proof.
  intros e db a Hu. unfold notes_of, trashed_notes_of.
  destruct (serve_transition e db) as (r & db' & E & T). rewrite E; cbn [snd].
  destruct T as [Hd _ _ _ | title content n0 Hq _ -> _ ->
                | j title content n0 rest Hq _ S _ ->
                | j n0 rest Hq S _ -> | j t0 rest Hq S _ ->
                | j t0 rest Hq S _ ->]; cbn.
  - now rewrite Hd.
  - rewrite filter_app; cbn.
    replace (userId e =? a) with false by (symmetry; apply Z.eqb_neq; lia).
    now rewrite app_nil_r.
  - split; [|reflexivity]. now apply filter_owner_update.
  - apply filter_head_in in S as [_ Hp]. unfold note_is in Hp.
    apply andb_true_iff in Hp as [_ Hv%Z.eqb_eq].
    split.
    + now apply (filter_owner_delete Note.user_id Note.id).
    + rewrite filter_app; cbn.
      replace (Note.user_id n0 =? a) with false
        by (symmetry; apply Z.eqb_neq; lia).
      now rewrite app_nil_r.
  - apply filter_head_in in S as [_ Hp]. unfold trashed_is in Hp.
    apply andb_true_iff in Hp as [_ Hv%Z.eqb_eq].
    split.
    + rewrite filter_app; cbn.
      replace (Trashed.user_id t0 =? a) with false
        by (symmetry; apply Z.eqb_neq; lia).
      now rewrite app_nil_r.
    + now apply (filter_owner_delete Trashed.user_id Trashed.id).
  - split; [reflexivity|].
    now apply (filter_owner_delete Trashed.user_id Trashed.id).
Qed.

Lemma others_rows_untouched_witness :
  notes_of 1 (snd (serve (mkEvent 2 30 no_fault (PutNote 2 "X" "Y"))
                         db_mixed)) = notes_of 1 db_mixed /\
  trashed_notes_of 1 (snd (serve (mkEvent 2 30 no_fault (PutNote 2 "X" "Y"))
                                 db_mixed)) = trashed_notes_of 1 db_mixed.
Proof.
  apply (others_rows_untouched (mkEvent 2 30 no_fault (PutNote 2 "X" "Y"))
           db_mixed 1).
  discriminate.
Defined.

(** ** Update and erase, when they succeed *)

Lemma update_row_is n title content now :
  update_row (Validator.trim title) (Validator.trim content) now n
  = updated_note n title content now.
Proof. reflexivity. Qed.

(** X4: a valid update by the owner answers 200 with the note under the same
    id, owner and [created_at], the trimmed title and content and
    [updated_at = now]; that note takes the place of the old one, every
    other row, the trashed notes and the sequences stay as they were; and
    [updated_at] does not go back as long as the clock does not. *)
Theorem update_changes_one_note :
  forall db n title content now,
    db_ok db ->
    In n (notes (data db)) ->
    fst (validationResult title content) = [] ->
    exists db',
      handle (update_note no_fault (Note.user_id n) (Note.id n)
                          title content now) db
      = (Done (res 200 (JNote (updated_note n title content now))), db') /\
      notes (data db')
      = map (fun m => if Note.id m =? Note.id n
                      then updated_note n title content now else m)
            (notes (data db)) /\
      trashed_notes (data db') = trashed_notes (data db) /\
      notes_id_seq db' = notes_id_seq db /\
      trashed_notes_id_seq db' = trashed_notes_id_seq db /\
      (forall b, recorded_until b db -> b <= now ->
                 Note.updated_at n
                 <= Note.updated_at (updated_note n title content now)).
Proof.
  intros db n title content now H Hn [Lt Lc]%validation_passes.
  pose proof (select_note_single db n H Hn) as S.
  unfold update_note. rewrite validationResult_eq, Lt, Lc; cbn [app].
  exec_unfold; exec_simpl. rewrite S; exec_simpl.
  eexists; split; [reflexivity|]. cbn. split.
  - apply map_ext_in. intros m Hm. unfold note_is.
    destruct (Note.id m =? Note.id n) eqn:E; [|reflexivity].
    apply Z.eqb_eq in E.
    assert (m = n)
      by (apply (NoDup_map_same Note.id _ m n (notes_unique _ H)); auto).
    subst m. now rewrite Z.eqb_refl.
  - do 3 (split; [reflexivity|]).
    intros b [Rn _] Le. specialize (Rn n Hn). lia.
Qed.

Lemma update_changes_one_note_witness :
  exists db',
    handle (update_note no_fault 1 2 " E" "F " 30) db_mixed
    = (Done (res 200 (JNote (updated_note other_note " E" "F " 30))), db') /\
    notes (data db')
    = map (fun m => if Note.id m =? 2
                    then updated_note other_note " E" "F " 30 else m)
          (notes (data db_mixed)) /\
    trashed_notes (data db') = trashed_notes (data db_mixed) /\
    notes_id_seq db' = notes_id_seq db_mixed /\
    trashed_notes_id_seq db' = trashed_notes_id_seq db_mixed /\
    (forall b, recorded_until b db_mixed -> b <= 30 ->
               15 <= Note.updated_at (updated_note other_note " E" "F " 30)).
Proof.
  apply (update_changes_one_note db_mixed other_note " E" "F " 30).
  - exact db_ok_mixed.
  - left; reflexivity.
  - reflexivity.
Defined.

(** X5: an erase by the owner answers 204 and removes that trashed note and
    nothing else: the other trashed notes, the active notes and the
    sequences stay as they were. *)
Theorem erase_removes_one_row :
  forall db t,
    db_ok db ->
    In t (trashed_notes (data db)) ->
    exists db',
      handle (erase_trashed_note no_fault (Trashed.user_id t) (Trashed.id t))
             db
      = (Done (res 204 JNone), db') /\
      ~ In t (trashed_notes (data db')) /\
      (forall x, In x (trashed_notes (data db)) -> x <> t ->
                 In x (trashed_notes (data db'))) /\
      (forall x, In x (trashed_notes (data db')) ->
                 In x (trashed_notes (data db))) /\
      notes (data db') = notes (data db) /\
      notes_id_seq db' = notes_id_seq db /\
      trashed_notes_id_seq db' = trashed_notes_id_seq db.
Proof.
  intros db t H Ht.
  pose proof (select_trashed_single db t H Ht) as S.
  exec_unfold; exec_simpl. rewrite S; exec_simpl.
  eexists; split; [reflexivity|]. cbn. repeat apply conj; auto.
  - intros [_ K]%filter_In. unfold trashed_is in K.
    now rewrite !Z.eqb_refl in K.
  - intros x Hx Ne. apply filter_In; split; [assumption|].
    unfold trashed_is.
    destruct (Trashed.id x =? Trashed.id t) eqn:E; [|reflexivity].
    apply Z.eqb_eq in E. exfalso; apply Ne.
    apply (NoDup_map_same Trashed.id _ x t (trashed_unique _ H)); auto.
  - intros x [Hx _]%filter_In; assumption.
Qed.

Lemma erase_removes_one_row_witness :
  exists db',
    handle (erase_trashed_note no_fault 1 1) db_mixed
    = (Done (res 204 JNone), db') /\
    ~ In sample_trashed (trashed_notes (data db')) /\
    (forall x, In x (trashed_notes (data db_mixed)) -> x <> sample_trashed ->
               In x (trashed_notes (data db'))) /\
    (forall x, In x (trashed_notes (data db')) ->
               In x (trashed_notes (data db_mixed))) /\
    notes (data db') = notes (data db_mixed) /\
    notes_id_seq db' = notes_id_seq db_mixed /\
    trashed_notes_id_seq db' = trashed_notes_id_seq db_mixed.
Proof.
  apply (erase_removes_one_row db_mixed sample_trashed).
  - exact db_ok_mixed.
  - left; reflexivity.
Defined.

(** ** Atomicity of the move back *)

(** X6: when the trashed note has been read and a later step of the restore
    route fails (the INSERT, the DELETE after the INSERT has run, or the
    COMMIT), the route answers 500 and the tables are as before: the
    trashed note is still there and no active note has appeared. *)
Theorem restore_is_atomic :
  forall f uid k now db t rest,
    filter (trashed_is k uid) (trashed_notes (data db)) = t :: rest ->
    f 0%nat = false -> f 1%nat = false ->
    f 2%nat = true \/ f 3%nat = true \/ f 4%nat = true ->
    exists db',
      handle (restore_note f uid k now) db
      = (Done (res 500 (JError "Failed to restore note")), db') /\
      data db' = data db /\
      In t (trashed_notes (data db')) /\
      notes (data db') = notes (data db).
Proof.
  intros f uid k now db t rest S F0 F1 F.
  assert (In t (trashed_notes (data db))) by (eapply filter_head_in; eauto).
  exec_unfold; exec_simpl. rewrite F0; exec_simpl. rewrite F1; exec_simpl.
  rewrite S; exec_simpl.
  destruct (f 2%nat) eqn:F2; exec_simpl; [eauto 6|].
  destruct (existsb _ _); exec_simpl; [eauto 6|].
  destruct (f 3%nat) eqn:F3; exec_simpl; [eauto 6|].
  destruct (f 4%nat) eqn:F4; exec_simpl; [eauto 6|].
  destruct F as [|[|]]; discriminate.
Qed.

Lemma restore_is_atomic_witness :
  exists db',
    handle (restore_note (fail_at 3) 1 1 30) db_trashed
    = (Done (res 500 (JError "Failed to restore note")), db') /\
    data db' = data db_trashed /\
    In sample_trashed (trashed_notes (data db')) /\
    notes (data db') = notes (data db_trashed).
Proof.
  apply (restore_is_atomic (fail_at 3) 1 1 30 db_trashed sample_trashed []).
  - reflexivity.
  - reflexivity.
  - reflexivity.
  - right; left; reflexivity.
Defined.

(** ** Counting rows *)

Lemma filter_split_length {A : Type} (p : A -> bool) (l : list A) :
  (List.length (filter p l) + List.length (filter (fun x => negb (p x)) l)
   = List.length l)%nat.
Proof.
  induction l as [|a l IH]; cbn; [reflexivity|].
  destruct (p a); cbn; lia.
Qed.

(** X7: on a well-formed database the number of rows of the two tables
    together goes up by one with a 201, down by one with a 204 of the erase
    route, and is the same after any other answer: no move between the
    tables loses or doubles a note. *)
Theorem rows_are_conserved :
  forall e db r db',
    db_ok db ->
    serve e db = (Done r, db') ->
    rows db' =
    rows db + (if status r =? 201 then 1 else 0)
    - match req e with
      | DeleteTrashedNote _ => if status r =? 204 then 1 else 0
      | _ => 0
      end.
Proof.
  intros e db r db' H E.
  destruct (serve_transition_of _ _ _ _ E) as (r0 & R & T).
  inversion R; subst r0; clear R. unfold rows.
  destruct T as [Hd _ _ Hs | title content n0 Hq _ -> -> ->
                | j title content n0 rest Hq _ S -> ->
                | j n0 rest Hq S -> -> | j t0 rest Hq S -> ->
                | j t0 rest Hq S -> ->]; try rewrite Hq; cbn.
  - rewrite Hd.
    destruct Hs as [Hs|[Hs|[Hs|[Hs [Hq|Hq]]]]]; rewrite Hs; try rewrite Hq;
      cbn; destruct (req e); lia.
  - rewrite length_app; cbn. lia.
  - rewrite length_map. lia.
  - destruct (select_note_alone _ _ _ _ _ H S) as (-> & _).
    pose proof (filter_split_length (note_is j (userId e))
                                    (notes (data db))) as L.
    rewrite S in L; cbn in L. rewrite length_app; cbn. lia.
  - destruct (select_trashed_alone _ _ _ _ _ H S) as (-> & _).
    pose proof (filter_split_length (trashed_is j (userId e))
                                    (trashed_notes (data db))) as L.
    rewrite S in L; cbn in L. rewrite length_app; cbn. lia.
  - destruct (select_trashed_alone _ _ _ _ _ H S) as (-> & _).
    pose proof (filter_split_length (trashed_is j (userId e))
                                    (trashed_notes (data db))) as L.
    rewrite S in L; cbn in L. lia.
Qed.

Lemma rows_are_conserved_witness :
  rows (mkDatabase (mkTables [] [sample_trashed]) 2 2) =
  rows db_active + 0 - 0.
Proof.
  apply (rows_are_conserved trash_1 db_active (res 204 JNone)).
  - exact db_ok_active.
  - reflexivity.
Defined.

(** ** The id of a trashed note is dead *)

Lemma transition_gone_note i e db r db' :
  gone_note i db -> transition e db r db' -> gone_note i db'.
Proof.
  intros [Hk Hg] T.
  destruct T as [Hd Hn Ht _ | title content n _ _ -> _ ->
                | j title content n rest _ _ S _ ->
                | j n rest _ S _ -> | j t rest _ S _ -> | j t rest _ S _ ->];
    split; cbn; rewrite ?Hd; auto; try lia.
  - intros x [Hx|[<-|[]]]%in_app_or; auto. cbn; lia.
  - intros x (m & Hm & -> & _)%in_update; auto.
  - intros x [Hx _]%filter_In; auto.
  - intros x [Hx|[<-|[]]]%in_app_or; auto. cbn; lia.
Qed.

Lemma run_gone_note i evs :
  forall db, gone_note i db -> gone_note i (run evs db).
Proof.
  induction evs as [|e evs IH]; cbn; intros db G; [assumption|].
  destruct (serve_transition e db) as (r & db' & E & T). rewrite E; cbn.
  eauto using transition_gone_note.
Qed.

(** X8: once the trash route has answered 204 for a note id, that id never
    names an active note again: after any further requests, restores
    included, a trash and an update of it, by anyone, are refused, with 404
    when no query fails and the body is valid. *)
Theorem trashed_note_id_is_dead :
  forall db e i db1 evs uid now title content,
    db_ok db ->
    req e = DeleteNote i ->
    serve e db = (Done (res 204 JNone), db1) ->
    refuses (fun f => trash_note f uid i now) (run evs db1) not_found_note /\
    (fst (validationResult title content) = [] ->
     handle (update_note no_fault uid i title content now) (run evs db1)
     = (Done not_found_note, run evs db1)) /\
    (forall f, exists r,
       handle (update_note f uid i title content now) (run evs db1)
       = (Done r, run evs db1) /\ refusal r).
Proof.
  intros db e i db1 evs uid now title content H Hq E.
  destruct (serve_transition_of _ _ _ _ E) as (r & R & T).
  inversion R; subst r; clear R.
  assert (G : gone_note i db1).
  { destruct T as [Hd Hn Ht Hs | title' content' n0 Hq' _ -> R ->
                  | j title' content' n0 rest Hq' _ S R ->
                  | j n0 rest Hq' S R -> | j t0 rest Hq' S R ->
                  | j t0 rest Hq' S R ->]; try congruence.
    - cbn in Hs. lia.
    - rewrite Hq in Hq'; inversion Hq'; subst j; clear Hq'.
      destruct (select_note_alone _ _ _ _ _ H S) as (_ & Hn0 & Hi & Hu).
      split; cbn.
      + pose proof (notes_below _ H n0 Hn0); lia.
      + intros x [Hx Hn]%filter_In Ex.
        assert (x = n0)
          by (apply (NoDup_map_same Note.id _ x n0 (notes_unique _ H));
              auto; lia).
        subst x. unfold note_is in Hn.
        rewrite Hi, Hu, !Z.eqb_refl in Hn. discriminate. }
  apply (run_gone_note i evs) in G. destruct G as [_ G].
  assert (S : filter (note_is i uid) (notes (data (run evs db1))) = []).
  { apply all_filter_nil. intros x Hx. unfold note_is.
    replace (Note.id x =? i) with false; [reflexivity|].
    symmetry; apply Z.eqb_neq; auto. }
  split; [now apply trash_refuses|now apply update_refuses].
Qed.

Lemma trashed_note_id_is_dead_witness :
  refuses (fun f => trash_note f 1 1 50) (run [restore_1] db_trashed)
          not_found_note /\
  (fst (validationResult "A" "B") = [] ->
   handle (update_note no_fault 1 1 "A" "B" 50) (run [restore_1] db_trashed)
   = (Done not_found_note, run [restore_1] db_trashed)) /\
  (forall f, exists r,
     handle (update_note f 1 1 "A" "B" 50) (run [restore_1] db_trashed)
     = (Done r, run [restore_1] db_trashed) /\ refusal r).
Proof.
  apply (trashed_note_id_is_dead db_active trash_1 1 db_trashed [restore_1]
           1 50 "A" "B").
  - exact db_ok_active.
  - reflexivity.
  - reflexivity.
Defined.

(** ** Listings after an edit or a move *)

Lemma order_by_desc_head {A : Type} (key : A -> Z) (l : list A) (x : A) :
  In x l -> (forall y, In y l -> y = x \/ key y < key x) ->
  exists rest, order_by_desc key l = x :: rest.
Proof.
  intros Hx Hmax.
  pose proof (order_by_desc_perm key l) as P.
  pose proof (order_by_desc_sorted key l) as S.
  destruct (order_by_desc key l) as [|h rest].
  - apply Permutation_nil in P. subst l. destruct Hx.
  - exists rest. f_equal.
    assert (Hh : In h l) by (eapply Permutation_in; [exact P|now left]).
    assert (Hx' : In x (h :: rest))
      by (eapply Permutation_in; [symmetry; exact P|exact Hx]).
    destruct (Hmax h Hh) as [|Lt]; [assumption|].
    destruct Hx' as [|Hr]; [congruence|].
    inversion S as [|? ? _ F]; subst.
    rewrite Forall_forall in F. specialize (F x Hr). unfold desc in F. lia.
Qed.

(** X9: when the clock has moved on since the last recorded timestamp, the
    note a create or an update has just written is the first of its owner's
    GET /notes listing. *)
Theorem latest_edit_listed_first :
  forall db b uid title content now,
    db_ok db ->
    recorded_until b db -> b < now ->
    fst (validationResult title content) = [] ->
    (exists n db' rest,
        serve (mkEvent uid now no_fault (PostNotes title content)) db
        = (Done (res 201 (JNote n)), db') /\
        handle (get_notes no_fault uid) db'
        = (Done (res 200 (JNotes (n :: rest))), db')) /\
    (forall m, In m (notes (data db)) -> Note.user_id m = uid ->
       exists db' rest,
         handle (update_note no_fault uid (Note.id m) title content now) db
         = (Done (res 200 (JNote (updated_note m title content now))), db') /\
         handle (get_notes no_fault uid) db'
         = (Done (res 200 (JNotes (updated_note m title content now :: rest))),
            db')).
Proof.
  intros db b uid title content now H [Rn _] Lt V. split.
  - rewrite (create_served db uid title content now H V).
    set (n := Note.mk _ _ _ _ _ _).
    destruct (order_by_desc_head Note.updated_at
                (filter (fun x => Note.user_id x =? uid)
                        (notes (data db) ++ [n])) n) as (rest & Hr).
    + apply filter_In; split; [apply in_or_app; cbn; auto|].
      cbn. apply Z.eqb_refl.
    + intros y [[Hy|[<-|[]]]%in_app_or _]%filter_In; auto.
      right. specialize (Rn y Hy). cbn. lia.
    + exists n. eexists. exists rest. split; [reflexivity|].
      exec_unfold; exec_simpl. now rewrite Hr.
  - intros m Hm <-.
    destruct (update_changes_one_note db m title content now H Hm V)
      as (db' & E & Hnotes & _).
    set (x := updated_note m title content now) in *.
    destruct (order_by_desc_head Note.updated_at
                (filter (fun y => Note.user_id y =? Note.user_id m)
                        (notes (data db'))) x) as (rest & Hr).
    + apply filter_In; split; [|cbn; apply Z.eqb_refl].
      rewrite Hnotes. apply in_map_iff. exists m.
      now rewrite Z.eqb_refl.
    + intros y [Hy _]%filter_In. rewrite Hnotes in Hy.
      apply in_map_iff in Hy as (m0 & <- & Hm0).
      destruct (Note.id m0 =? Note.id m); auto.
      right. specialize (Rn m0 Hm0). cbn. lia.
    + exists db', rest. split; [exact E|].
      exec_unfold; exec_simpl.
      destruct db' as [[ns ts] s1 s2]; cbn in *. now rewrite Hr.
Qed.

Lemma latest_edit_listed_first_witness :
  (exists n db' rest,
      serve (mkEvent 1 30 no_fault (PostNotes "E" "F")) db_mixed
      = (Done (res 201 (JNote n)), db') /\
      handle (get_notes no_fault 1) db'
      = (Done (res 200 (JNotes (n :: rest))), db')) /\
  (forall m, In m (notes (data db_mixed)) -> Note.user_id m = 1 ->
     exists db' rest,
       handle (update_note no_fault 1 (Note.id m) "E" "F" 30) db_mixed
       = (Done (res 200 (JNote (updated_note m "E" "F" 30))), db') /\
       handle (get_notes no_fault 1) db'
       = (Done (res 200 (JNotes (updated_note m "E" "F" 30 :: rest))), db')).
Proof.
  apply (latest_edit_listed_first db_mixed 20 1 "E" "F" 30).
  - exact db_ok_mixed.
  - split.
    + intros n [<-|[]]; cbn; lia.
    + intros t [<-|[]]; cbn; split; [lia|].
      intros T E; inversion E; lia.
  - lia.
  - reflexivity.
Defined.

Lemma listed_notes uid db :
  exists rows,
    handle (get_notes no_fault uid) db = (Done (res 200 (JNotes rows)), db) /\
    forall n, In n rows <->
              In n (notes (data db)) /\ Note.user_id n = uid.
Proof.
  eexists; split; [reflexivity|]. intros n. split.
  - intros Hn. apply (Permutation_in _ (order_by_desc_perm _ _)) in Hn.
    apply filter_In in Hn as [Hn E%Z.eqb_eq]. auto.
  - intros [Hn E].
    apply (Permutation_in _ (Permutation_sym (order_by_desc_perm _ _))).
    apply filter_In; split; [assumption|now apply Z.eqb_eq].
Qed.

Lemma listed_trashed_notes uid db :
  exists rows,
    handle (get_trashed_notes no_fault uid) db
    = (Done (res 200 (JTrashedNotes rows)), db) /\
    forall t, In t rows <->
              In t (trashed_notes (data db)) /\ Trashed.user_id t = uid.
Proof.
  eexists; split; [reflexivity|]. intros n. split.
  - intros Hn. apply (Permutation_in _ (order_by_desc_perm _ _)) in Hn.
    apply filter_In in Hn as [Hn E%Z.eqb_eq]. auto.
  - intros [Hn E].
    apply (Permutation_in _ (Permutation_sym (order_by_desc_perm _ _))).
    apply filter_In; split; [assumption|now apply Z.eqb_eq].
Qed.

(** X10: after the owner has trashed a note, GET /notes no longer lists a
    note of that id and GET /trashed-notes lists a row that names it, with
    its title and content; after the owner has restored a trashed note,
    GET /trashed-notes no longer lists it and GET /notes lists the note the
    restore answered with, under the same title and content. *)
Theorem moves_show_in_listings :
  forall db now,
    db_ok db ->
    (forall n, In n (notes (data db)) ->
       exists db' active trashed t,
         handle (trash_note no_fault (Note.user_id n) (Note.id n) now) db
         = (Done (res 204 JNone), db') /\
         handle (get_notes no_fault (Note.user_id n)) db'
         = (Done (res 200 (JNotes active)), db') /\
         (forall m, In m active -> Note.id m <> Note.id n) /\
         handle (get_trashed_notes no_fault (Note.user_id n)) db'
         = (Done (res 200 (JTrashedNotes trashed)), db') /\
         In t trashed /\ Trashed.note_id t = Note.id n /\
         Trashed.title t = Note.title n /\
         Trashed.content t = Note.content n) /\
    (forall t, In t (trashed_notes (data db)) ->
       exists db' n active trashed,
         handle (restore_note no_fault (Trashed.user_id t) (Trashed.id t) now)
                db
         = (Done (res 200 (JNote n)), db') /\
         handle (get_trashed_notes no_fault (Trashed.user_id t)) db'
         = (Done (res 200 (JTrashedNotes trashed)), db') /\
         (forall x, In x trashed -> Trashed.id x <> Trashed.id t) /\
         handle (get_notes no_fault (Trashed.user_id t)) db'
         = (Done (res 200 (JNotes active)), db') /\
         In n active /\
         Note.title n = Trashed.title t /\
         Note.content n = Trashed.content t).
Proof.
  intros db now H. split.
  - intros n Hn.
    pose proof (select_note_single db n H Hn) as S.
    pose proof (trash_served db _ _ now n [] H S) as E.
    match type of E with _ = (_, ?d) => set (db' := d) in E end.
    destruct (listed_notes (Note.user_id n) db') as (active & EA & HA).
    destruct (listed_trashed_notes (Note.user_id n) db')
      as (trashed & ET & HT).
    exists db', active, trashed,
      (moved_to_trash (trashed_notes_id_seq db) n now).
    split; [exact E|]. split; [exact EA|]. split.
    { intros m [[Hm K]%filter_In _]%HA Em.
      assert (m = n)
        by (apply (NoDup_map_same Note.id _ m n (notes_unique _ H)); auto).
      subst m. unfold note_is in K. now rewrite !Z.eqb_refl in K. }
    split; [exact ET|]. split; [|cbn; auto].
    apply HT. split; [|reflexivity]. cbn. apply in_or_app; cbn; auto.
  - intros t Ht.
    pose proof (select_trashed_single db t H Ht) as S.
    pose proof (restore_served db _ _ now t [] H S) as E.
    match type of E with _ = (_, ?d) => set (db' := d) in E end.
    destruct (listed_notes (Trashed.user_id t) db') as (active & EA & HA).
    destruct (listed_trashed_notes (Trashed.user_id t) db')
      as (trashed & ET & HT).
    exists db', (moved_to_notes (notes_id_seq db) t now), active, trashed.
    split; [exact E|]. split; [exact ET|]. split.
    { intros x [[Hx K]%filter_In _]%HT Ex.
      assert (x = t)
        by (apply (NoDup_map_same Trashed.id _ x t (trashed_unique _ H));
            auto).
      subst x. unfold trashed_is in K. now rewrite !Z.eqb_refl in K. }
    split; [exact EA|]. split; [|cbn; auto].
    apply HA. split; [|reflexivity]. cbn. apply in_or_app; cbn; auto.
Qed.

Lemma moves_show_in_listings_witness :
  exists db' active trashed t,
    handle (trash_note no_fault 1 2 30) db_mixed
    = (Done (res 204 JNone), db') /\
    handle (get_notes no_fault 1) db'
    = (Done (res 200 (JNotes active)), db') /\
    (forall m, In m active -> Note.id m <> 2) /\
    handle (get_trashed_notes no_fault 1) db'
    = (Done (res 200 (JTrashedNotes trashed)), db') /\
    In t trashed /\ Trashed.note_id t = 2 /\
    Trashed.title t = "C"%string /\
    Trashed.content t = "D"%string.
Proof.
  destruct (moves_show_in_listings db_mixed 30 db_ok_mixed) as [A _].
  apply (A other_note). left; reflexivity.
Defined.

(** ** What is stored is trimmed *)

Lemma ltrim_head s :
  Validator.ltrim s = EmptyString \/
  exists c r, Validator.ltrim s = String c r /\ Validator.is_space c = false.
Proof.
  induction s as [|c s IH]; cbn; [now left|].
  destruct (Validator.is_space c) eqn:E; [exact IH|].
  right. eauto.
Qed.

Lemma rtrim_idempotent s :
  Validator.rtrim (Validator.rtrim s) = Validator.rtrim s.
Proof.
  induction s as [|c s IH]; cbn; [reflexivity|].
  destruct (Validator.rtrim s) as [|c' r] eqn:E.
  - destruct (Validator.is_space c) eqn:Ec; cbn; [reflexivity|].
    now rewrite Ec.
  - cbn [Validator.rtrim]. fold Validator.rtrim.
    change (match Validator.rtrim (String c' r) with
            | EmptyString =>
                if Validator.is_space c then EmptyString
                else String c EmptyString
            | String a s0 => String c (String a s0)
            end = String c (String c' r)).
    now rewrite IH.
Qed.

Lemma rtrim_keeps_head c r :
  Validator.is_space c = false ->
  exists r', Validator.rtrim (String c r) = String c r'.
Proof.
  intros E. cbn. destruct (Validator.rtrim r); [rewrite E|]; eauto.
Qed.

Lemma trim_idempotent s :
  Validator.trim (Validator.trim s) = Validator.trim s.
Proof.
  unfold Validator.trim.
  destruct (ltrim_head s) as [->|(c & r & -> & E)]; [reflexivity|].
  destruct (rtrim_keeps_head c r E) as (r' & Hr).
  rewrite Hr at 1. cbn [Validator.ltrim]. rewrite E, <- Hr.
  apply rtrim_idempotent.
Qed.

Lemma transition_trimmed e db r db' :
  trimmed_db db -> transition e db r db' -> trimmed_db db'.
Proof.
  intros [Tn Tt] T.
  destruct T as [Hd Hn Ht _ | title content n _ _ -> _ ->
                | j title content n rest _ _ S _ ->
                | j n rest _ S _ -> | j t rest _ S _ -> | j t rest _ S _ ->];
    split; cbn; rewrite ?Hd; auto.
  - intros x [Hx|[<-|[]]]%in_app_or; [now apply Tn|].
    split; apply trim_idempotent.
  - intros x (m & <- & Hm)%in_map_iff.
    destruct (note_is j (userId e) m); [|now apply Tn].
    split; apply trim_idempotent.
  - intros x [Hx _]%filter_In; now apply Tn.
  - apply filter_head_in in S as [Hn _].
    intros x [Hx|[<-|[]]]%in_app_or; [now apply Tt|].
    exact (Tn n Hn).
  - apply filter_head_in in S as [Ht _].
    intros x [Hx|[<-|[]]]%in_app_or; [now apply Tn|].
    exact (Tt t Ht).
  - intros x [Hx _]%filter_In; now apply Tt.
  - intros x [Hx _]%filter_In; now apply Tt.
Qed.

(** X11: the routes store nothing but trimmed text: if every title and
    content in the tables is trimmed, it is so after any run of requests,
    whatever they carry and whatever fails. *)
Theorem stored_text_is_trimmed :
  forall evs db, trimmed_db db -> trimmed_db (run evs db).
Proof.
  induction evs as [|e evs IH]; cbn; intros db H; [assumption|].
  destruct (serve_transition e db) as (r & db' & E & T). rewrite E; cbn.
  apply IH. eapply transition_trimmed; eauto.
Qed.

Lemma stored_text_is_trimmed_witness :
  trimmed_db (run [mkEvent 1 10 no_fault (PostNotes "  A " " B"); trash_1]
                  empty_db).
Proof.
  apply (stored_text_is_trimmed
           [mkEvent 1 10 no_fault (PostNotes "  A " " B"); trash_1] empty_db).
  split; intros ? [].
Defined.

(** ** Witnesses of two facts proved with the claims *)

Lemma empty_field_rejected_witness :
  (exists errors,
     handle (create_note no_fault 1 "" "B" 10) empty_db
     = (Done (res 400 (JErrors errors)), empty_db)) /\
  (exists errors,
     handle (update_note no_fault 1 1 "" "B" 10) empty_db
     = (Done (res 400 (JErrors errors)), empty_db)).
Proof.
  apply (empty_field_rejected no_fault 1 1 "" "B" 10 empty_db).
  left; reflexivity.
Defined.

Lemma run_trashed_after_edit_witness :
  trashed_after_edit (run [create_AB; create_CD; trash_1] empty_db).
Proof.
  apply (run_trashed_after_edit [create_AB; create_CD; trash_1] 0 empty_db).
  - apply recorded_empty.
  - intros t T [].
  - cbn. lia.
Defined.

(** * The user service *)

Section UserServiceFacts.

Variable escape : string -> string.
Variable bcrypt_hash : string -> string -> string.
Variable bcrypt_compare : string -> string -> bool.
Variable jwt_sign : Z -> Z -> string.

Lemma credentialsResult_eq username password :
  credentialsResult escape username password =
  ((if Validator.isLength 3 username then [] else ["username"%string]) ++
   (if Validator.isLength 6 password then [] else ["password"%string]),
   (escape (Validator.trim username), password)).
Proof.
  unfold credentialsResult, username_chain, password_chain. cbn.
  now rewrite !andb_true_r.
Qed.

(** X12: credentials with a username of fewer than 3 characters or a
    password of fewer than 6 are answered 400 by /register and by /login
    before anything is hashed or queried; the users stay as they are. *)
Theorem short_credentials_are_refused :
  forall fails salt username password now d,
    (String.length username < 3)%nat \/ (String.length password < 6)%nat ->
    exists errors,
      errors <> [] /\
      register escape bcrypt_hash fails salt username password now d
      = (ures 400 (UErrors errors), d) /\
      login escape bcrypt_compare jwt_sign fails username password now d
      = (ures 400 (UErrors errors), d).
Proof.
  intros fails salt username password now d H.
  unfold register, login. rewrite credentialsResult_eq.
  unfold Validator.isLength.
  destruct (3 <=? String.length username)%nat eqn:Eu;
    destruct (6 <=? String.length password)%nat eqn:Ep; cbn [app];
    try (eexists; split; [|split; reflexivity]; discriminate).
  apply Nat.leb_le in Eu, Ep. lia.
Qed.

(** X13: registering a username that, trimmed and escaped, is already
    taken is answered 400 and adds no user. *)
Theorem taken_username_is_refused :
  forall salt username password now d u,
    In u (users d) ->
    User.username u = escape (Validator.trim username) ->
    exists r d',
      register escape bcrypt_hash false salt username password now d
      = (r, d') /\
      ustatus r = 400 /\
      users d' = users d.
Proof.
  intros salt username password now d u Hu Eu.
  unfold register. rewrite credentialsResult_eq.
  destruct (Validator.isLength 3 username), (Validator.isLength 6 password);
    cbn [app]; try (do 2 eexists; repeat split; reflexivity).
  unfold insert_into_users.
  destruct (_ || _)%bool; [do 2 eexists; repeat split; reflexivity|].
  replace (existsb _ (users d)) with true.
  - cbn. do 2 eexists; repeat split; reflexivity.
  - symmetry. apply existsb_exists. exists u. split; [assumption|].
    now apply String.eqb_eq.
Qed.

Lemma users_ok_fresh d :
  users_ok d -> existsb (fun u => User.id u =? users_id_seq d) (users d)
                = false.
Proof.
  intros H. destruct (existsb _ _) eqn:E; [|reflexivity].
  apply existsb_exists in E as (u & Hu & E%Z.eqb_eq).
  pose proof (users_below _ H u Hu); lia.
Qed.

(** X14: whatever is posted to /register and /login, users keep unique ids
    below the sequence and unique usernames, and /login writes nothing. *)
Theorem users_stay_well_formed :
  forall fails salt username password now d,
    users_ok d ->
    users_ok (snd (register escape bcrypt_hash fails salt username password
                            now d)) /\
    snd (login escape bcrypt_compare jwt_sign fails username password now d)
    = d.
Proof.
  intros fails salt username password now d H. split.
  - unfold register. rewrite credentialsResult_eq.
    destruct (Validator.isLength 3 username),
             (Validator.isLength 6 password); cbn [app snd]; auto.
    destruct fails; cbn [snd]; auto.
    assert (Hseq : users_ok (mkUsers (users d) (users_id_seq d + 1))).
    { destruct H as [B U N]. constructor; cbn; auto.
      intros u Hu. specialize (B u Hu). lia. }
    unfold insert_into_users.
    destruct (_ || _)%bool; cbn [snd]; auto.
    destruct (existsb (fun u => String.eqb (User.username u) _) (users d))
      eqn:En; cbn [orb snd]; auto.
    destruct (existsb (fun u => User.id u =? _) (users d)); cbn [snd]; auto.
    destruct H as [B U N]. constructor; cbn.
    + intros u [Hu|[<-|[]]]%in_app_or; [specialize (B u Hu)|cbn]; lia.
    + apply NoDup_map_snoc; auto.
      intros y Hy; specialize (B y Hy); cbn; lia.
    + rewrite map_app. cbn.
      apply NoDup_app; [assumption|repeat constructor; intros []|].
      intros a Ha [<-|[]]. apply in_map_iff in Ha as (y & Hy & Hin).
      assert (K : existsb (fun u => String.eqb (User.username u)
                                      (escape (Validator.trim username)))
                          (users d) = true)
        by (apply existsb_exists; exists y; split;
            [assumption|now apply String.eqb_eq]).
      rewrite K in En. discriminate.
  - unfold login. rewrite credentialsResult_eq.
    destruct (Validator.isLength 3 username),
             (Validator.isLength 6 password); cbn [app snd]; auto.
    destruct fails; cbn [snd]; auto.
    destruct (select_user _ d); cbn [snd]; auto.
    destruct (bcrypt_compare _ _); reflexivity.
Qed.

(** X15: for credentials of valid lengths, a username nobody has and a
    password that does not match the stored hash get the same answer from
    /login, 401 with one message. *)
Theorem login_failures_look_alike :
  forall username password now d,
    (3 <= String.length username)%nat ->
    (6 <= String.length password)%nat ->
    (forall u, In u (users d) ->
               User.username u = escape (Validator.trim username) ->
               bcrypt_compare password (User.password u) = false) ->
    login escape bcrypt_compare jwt_sign false username password now d
    = (ures 401 (UError "Invalid username or password"), d).
Proof.
  intros username password now d Lu Lp H.
  unfold login. rewrite credentialsResult_eq.
  unfold Validator.isLength.
  apply Nat.leb_le in Lu, Lp. rewrite Lu, Lp; cbn [app].
  destruct (select_user _ d) as [|u l] eqn:S; [reflexivity|].
  apply filter_head_in in S as [Hu E%String.eqb_eq].
  now rewrite (H u Hu E).
Qed.

(** X16: a user who has registered logs in with the same username and
    password, given that bcrypt accepts the password against its own hash:
    /register answers 201 with a new id, /login then answers 200 with the
    token signed for that id, and a request that carries a token verifying
    to that id is served by the notes service as that user. *)
Theorem register_then_login :
  forall salt username password t0 t1 d,
    users_ok d ->
    (3 <= String.length username)%nat ->
    (6 <= String.length password)%nat ->
    (String.length (escape (Validator.trim username)) <= 255)%nat ->
    (String.length (bcrypt_hash salt password) <= 255)%nat ->
    ~ In (escape (Validator.trim username)) (map User.username (users d)) ->
    bcrypt_compare password (bcrypt_hash salt password) = true ->
    exists d',
      register escape bcrypt_hash false salt username password t0 d
      = (ures 201 (URegistered (users_id_seq d)
                               "User registered successfully"), d') /\
      login escape bcrypt_compare jwt_sign false username password t1 d'
      = (ures 200 (UToken (jwt_sign t1 (users_id_seq d))), d') /\
      forall verify h db,
        authorization h = Some (jwt_sign t1 (users_id_seq d)) ->
        jwt_sign t1 (users_id_seq d) <> EmptyString ->
        verify (served_at h) (jwt_sign t1 (users_id_seq d))
        = Some (users_id_seq d) ->
        handle (application verify h) db
        = serve (mkEvent (users_id_seq d) (served_at h) (plan h) (call h)) db.
Proof.
  intros salt username password t0 t1 d H Lu Lp Wu Wp Free C.
  unfold register, login.
  rewrite credentialsResult_eq. unfold Validator.isLength.
  pose proof Lu as Lu'. pose proof Lp as Lp'.
  apply Nat.leb_le in Lu', Lp'. rewrite Lu', Lp'; cbn [app].
  unfold insert_into_users.
  replace (255 <? String.length (escape (Validator.trim username)))%nat
    with false by (symmetry; apply Nat.ltb_ge; lia).
  replace (255 <? String.length (bcrypt_hash salt password))%nat
    with false by (symmetry; apply Nat.ltb_ge; lia).
  cbn [orb].
  assert (En : existsb (fun u => String.eqb (User.username u)
                                   (escape (Validator.trim username)))
                       (users d) = false).
  { destruct (existsb _ _) eqn:E; [|reflexivity].
    apply existsb_exists in E as (u & Hu & E%String.eqb_eq).
    exfalso; apply Free. rewrite <- E. now apply in_map. }
  rewrite En, (users_ok_fresh _ H); cbn [orb].
  eexists; split; [reflexivity|]. split.
  - unfold select_user; cbn [users]. rewrite filter_app; cbn.
    rewrite String.eqb_refl.
    replace (filter _ (users d)) with (@nil User.t).
    + cbn. now rewrite C.
    + symmetry. apply all_filter_nil. intros u Hu.
      destruct (String.eqb _ _) eqn:E; [|reflexivity].
      apply String.eqb_eq in E. exfalso; apply Free. rewrite <- E.
      now apply in_map.
  - intros verify h db Ha Ne Hv. unfold application, authMiddleware.
    rewrite Ha. destruct (jwt_sign t1 (users_id_seq d)); [congruence|].
    now rewrite Hv.
Qed.

End UserServiceFacts.

Lemma short_credentials_are_refused_witness :
  exists errors,
    errors <> [] /\
    register (fun s => s) plain_hash false "salt" "al" "secret" 10 one_user
    = (ures 400 (UErrors errors), one_user) /\
    login (fun s => s) plain_compare plain_sign false "al" "secret" 10
          one_user
    = (ures 400 (UErrors errors), one_user).
Proof.
  apply (short_credentials_are_refused (fun s => s) plain_hash plain_compare
           plain_sign false "salt" "al" "secret" 10 one_user).
  left. cbn. lia.
Defined.

Lemma taken_username_is_refused_witness :
  exists r d',
    register (fun s => s) plain_hash false "salt" " alice " "another" 10
             one_user
    = (r, d') /\
    ustatus r = 400 /\
    users d' = users one_user.
Proof.
  apply (taken_username_is_refused (fun s => s) plain_hash "salt" " alice "
           "another" 10 one_user (User.mk 1 "alice" "saltsecret" 5)).
  - left; reflexivity.
  - reflexivity.
Defined.

Lemma users_ok_one_user : users_ok one_user.
Proof.
  constructor; cbn.
  - intros u [<-|[]]; cbn; lia.
  - repeat constructor; intros [].
  - repeat constructor; intros [].
Qed.

Lemma users_stay_well_formed_witness :
  users_ok (snd (register (fun s => s) plain_hash false "salt" "bob"
                          "hunter22" 10 one_user)) /\
  snd (login (fun s => s) plain_compare plain_sign false "bob" "hunter22" 10
             one_user) = one_user.
Proof.
  apply (users_stay_well_formed (fun s => s) plain_hash plain_compare
           plain_sign false "salt" "bob" "hunter22" 10 one_user).
  exact users_ok_one_user.
Defined.

Lemma login_failures_look_alike_witness :
  login (fun s => s) plain_compare plain_sign false "alice" "guess1" 10
        one_user
  = (ures 401 (UError "Invalid username or password"), one_user) /\
  login (fun s => s) plain_compare plain_sign false "nobody" "guess1" 10
        one_user
  = (ures 401 (UError "Invalid username or password"), one_user).
Proof.
  split.
  - apply (login_failures_look_alike (fun s => s) plain_compare plain_sign
             "alice" "guess1" 10 one_user).
    + cbn; lia.
    + cbn; lia.
    + intros u [<-|[]] _. reflexivity.
  - apply (login_failures_look_alike (fun s => s) plain_compare plain_sign
             "nobody" "guess1" 10 one_user).
    + cbn; lia.
    + cbn; lia.
    + intros u [<-|[]] E; discriminate E.
Defined.

Lemma register_then_login_witness :
  exists d',
    register (fun s => s) plain_hash false "salt" " bob" "hunter22" 10
             one_user
    = (ures 201 (URegistered 2 "User registered successfully"), d') /\
    login (fun s => s) plain_compare plain_sign false " bob" "hunter22" 20 d'
    = (ures 200 (UToken (plain_sign 20 2)), d') /\
    forall verify h db,
      authorization h = Some (plain_sign 20 2) ->
      plain_sign 20 2 <> EmptyString ->
      verify (served_at h) (plain_sign 20 2) = Some 2 ->
      handle (application verify h) db
      = serve (mkEvent 2 (served_at h) (plan h) (call h)) db.
Proof.
  apply (register_then_login (fun s => s) plain_hash plain_compare plain_sign
           "salt" " bob" "hunter22" 10 20 one_user).
  - exact users_ok_one_user.
  - apply Nat.leb_le; reflexivity.
  - apply Nat.leb_le; reflexivity.
  - apply Nat.leb_le; reflexivity.
  - apply Nat.leb_le; reflexivity.
  - intros [E|[]]. discriminate E.
  - reflexivity.
Defined.

(** * The notes page of the client *)

(** X17: right after a note has been selected, and right after a reset, a
    run of the autosave sends nothing. *)
Theorem nothing_to_save_after_select_or_reset :
  forall generateTitle token state id content title,
    NotesPage.debouncedSave generateTitle token
      (NotesPage.noteReducer state
         (NotesPage.SELECT_NOTE (Some id) content title))
    = NotesPage.Idle /\
    NotesPage.debouncedSave generateTitle token
      (NotesPage.noteReducer state NotesPage.RESET)
    = NotesPage.Idle.
Proof.
  intros g token state id content title. split.
  - unfold NotesPage.debouncedSave; cbn.
    rewrite !String.eqb_refl; cbn.
    now destruct (_ || _)%bool.
  - unfold NotesPage.debouncedSave; cbn. now rewrite orb_true_r.
Qed.

(** X18: when a note is selected and its content is then changed to
    something that is not blank, the autosave sends a PUT for the selected
    id with the new content, under the current title if there is one and
    the generated title otherwise. *)
Theorem edit_of_selected_note_is_put :
  forall generateTitle token state id content title content',
    token <> EmptyString ->
    NotesPage.js_trim content' <> EmptyString ->
    content' <> content ->
    NotesPage.debouncedSave generateTitle token
      (NotesPage.noteReducer
         (NotesPage.noteReducer state
            (NotesPage.SELECT_NOTE (Some id) content title))
         (NotesPage.UPDATE_CONTENT content' None))
    = NotesPage.Put id
        (if NotesPage.truthy title then title else generateTitle content')
        content'.
Proof.
  intros g token state id content title content' Ht Hc Hd.
  unfold NotesPage.debouncedSave, NotesPage.saveEdit, NotesPage.truthy,
    NotesPage.js_trim in *.
  cbn -[Validator.trim String.eqb].
  apply String.eqb_neq in Ht, Hc, Hd. rewrite Ht, Hc, Hd. reflexivity.
Qed.

Lemma edit_of_selected_note_is_put_witness :
  NotesPage.debouncedSave (fun _ => "generated"%string) "token"
    (NotesPage.noteReducer
       (NotesPage.noteReducer
          (NotesPage.mkState [] None "" "" "" "" false None)
          (NotesPage.SELECT_NOTE (Some 1) "<p>B</p>" ""))
       (NotesPage.UPDATE_CONTENT "<p>B!</p>" None))
  = NotesPage.Put 1
      (if NotesPage.truthy "" then ""%string else "generated"%string)
      "<p>B!</p>".
Proof.
  apply (edit_of_selected_note_is_put (fun _ => "generated"%string) "token"
           (NotesPage.mkState [] None "" "" "" "" false None)
           1 "<p>B</p>" "" "<p>B!</p>"); discriminate.
Defined.

(** X19: whatever the state, the autosave never sends a blank content, nor
    anything without a token; so the content it sends always passes the
    length check of the routes. *)
Theorem autosave_never_sends_blank_content :
  forall generateTitle token state title content,
    NotesPage.debouncedSave generateTitle token state
    = NotesPage.Post title content \/
    (exists id, NotesPage.debouncedSave generateTitle token state
                = NotesPage.Put id title content) ->
    token <> EmptyString /\
    NotesPage.js_trim content <> EmptyString /\
    Validator.isLength 1 content = true.
Proof.
  intros g token state title content H.
  unfold NotesPage.debouncedSave, NotesPage.addNote, NotesPage.saveEdit,
    NotesPage.truthy in H.
  destruct (String.eqb token "") eqn:Et; cbn in H;
    [destruct H as [H|(i & H)]; discriminate|].
  destruct (String.eqb (NotesPage.js_trim (NotesPage.newContent state)) "")
    eqn:Ec; cbn in H; [destruct H as [H|(i & H)]; discriminate|].
  assert (K : content = NotesPage.newContent state).
  { destruct (NotesPage.selectedNoteId state);
      [destruct (_ || _)%bool; [destruct (NotesPage.tempDeletedNote state);
         [destruct (String.eqb (NotesPage.newContent state) "")|]|]|];
      destruct H as [H|(i & H)]; inversion H; reflexivity. }
  subst content. apply String.eqb_neq in Et, Ec.
  repeat split; auto.
  apply isLength_1. intros E. apply Ec. now rewrite E.
Qed.

Lemma autosave_never_sends_blank_content_witness :
  "token"%string <> EmptyString /\
  NotesPage.js_trim "<p>B</p>" <> EmptyString /\
  Validator.isLength 1 "<p>B</p>" = true.
Proof.
  apply (autosave_never_sends_blank_content (fun _ => ""%string) "token"
           (NotesPage.mkState [] None "<p>B</p>" "" "T" "" false None)
           "T" "<p>B</p>").
  left; reflexivity.
Defined.

(** X20: a new note whose title is empty, as [generateTitle] leaves it for
    a content without text in a heading or a paragraph, is posted by the
    autosave and refused by POST /notes with 400; nothing is stored. *)
Theorem untitled_new_note_is_refused :
  forall generateTitle token state f uid now db,
    token <> EmptyString ->
    NotesPage.js_trim (NotesPage.newContent state) <> EmptyString ->
    NotesPage.selectedNoteId state = None ->
    NotesPage.currentTitle state = EmptyString ->
    NotesPage.debouncedSave generateTitle token state
    = NotesPage.Post "" (NotesPage.newContent state) /\
    exists errors,
      handle (create_note f uid "" (NotesPage.newContent state) now) db
      = (Done (res 400 (JErrors errors)), db).
Proof.
  intros g token state f uid now db Ht Hc Hs Hti. split.
  - unfold NotesPage.debouncedSave, NotesPage.addNote, NotesPage.truthy.
    apply String.eqb_neq in Ht, Hc. now rewrite Ht, Hc, Hs, Hti.
  - unfold create_note. rewrite validationResult_eq.
    change (Validator.isLength 1 "") with false.
    destruct (Validator.isLength 1 (NotesPage.newContent state));
      eexists; reflexivity.
Qed.

Lemma untitled_new_note_is_refused_witness :
  NotesPage.debouncedSave (fun _ => ""%string) "token"
    (NotesPage.mkState [] None "<h2>B</h2>" "" "" "" false None)
  = NotesPage.Post "" "<h2>B</h2>" /\
  exists errors,
    handle (create_note no_fault 1 "" "<h2>B</h2>" 10) empty_db
    = (Done (res 400 (JErrors errors)), empty_db).
Proof.
  apply (untitled_new_note_is_refused (fun _ => ""%string) "token"
           (NotesPage.mkState [] None "<h2>B</h2>" "" "" "" false None)
           no_fault 1 10 empty_db); try discriminate; reflexivity.
Defined.
